(** * scripts/aws_vpc.py: provisioning a VPC through the EC2 API

    The script is one flat procedure: it reads a region, probes for an unused
    VPC name, then creates and tags a VPC, an internet gateway, a subnet, a
    route and a security group, and prints a summary.

    The embedding keeps that shape.  The script is a value of a small program
    monad [Prog] whose only effects are the three the script has: [input],
    a call on the boto3 EC2 client, and [print].  An [Env] answers the reads
    and the calls; [run] executes a program against an environment and
    returns the trace of events, the outcome and the final world. *)

From Stdlib Require Import List String Ascii Bool Arith ZArith Lia.
From Stdlib Require Import DecimalString DecimalNat Wf_nat FinFun Finite.
Import ListNotations.
Local Open Scope string_scope.
Local Open Scope list_scope.

(** ** Python values *)

(** The exceptions that can end the script.  The script has no [try], so
    whichever is raised first is the one that terminates it. *)
Inductive Exception : Type :=
| EOFError                      (* input() when stdin is exhausted *)
| ApiError (code : string)      (* anything raised inside a boto3 call *)
| KeyError (key : string)       (* d[key] on a dict without that key *)
| IndexError.                   (* l[0] on an empty list *)

(** Truth value of a Python string and of a Python list. *)
Definition truthy_str (s : string) : bool :=
  match s with EmptyString => false | String _ _ => true end.

Definition truthy {A : Type} (l : list A) : bool :=
  match l with [] => false | _ :: _ => true end.

(** [a or b] on strings. *)
Definition py_or (a b : string) : string := if truthy_str a then a else b.

(** [str(i)] for a non-negative int: decimal digits, no leading zero. *)
Definition str (i : nat) : string := NilEmpty.string_of_uint (Nat.to_uint i).

(** ** The EC2 API as the script uses it *)

Record Tag : Type := { Key : string; Value : string }.
Record Filter : Type := { Name : string; Values : list string }.
Record IpRange : Type := { CidrIp : string }.
Record IpPermission : Type :=
  { IpProtocol : string; FromPort : Z; ToPort : Z; IpRanges : list IpRange }.

Record Vpc : Type := { VpcId : string; Tags : list Tag }.
Record RouteTable : Type := { RouteTableId : string }.

(** [boto3.client(service, region_name=region)]: the client remembers the
    service and the region; making it calls nothing. *)
Record Client : Type := { service_name : string; region_name : string }.

Definition boto3_client (service region : string) : Client :=
  {| service_name := service; region_name := region |}.

(** The methods the script calls, with the keyword arguments it passes. *)
Inductive Call : Type :=
| describe_vpcs (Filters : list Filter)
| create_vpc (CidrBlock InstanceTenancy : string)
| create_tags (Resources : list string) (Tags : list Tag)
| create_internet_gateway
| attach_internet_gateway (InternetGatewayId VpcId : string)
| create_subnet (VpcId CidrBlock : string)
| describe_route_tables (Filters : list Filter)
| create_route (RouteTableId DestinationCidrBlock GatewayId : string)
| associate_route_table (RouteTableId SubnetId : string)
| create_security_group (GroupName Description VpcId : string)
| authorize_security_group_ingress (GroupId : string)
                                   (IpPermissions : list IpPermission).

(** What a call hands back: the response dict, reduced to the fields the
    script reads.  A response of another shape lacks the key the script
    subscripts with, which is a [KeyError] in Python. *)
Inductive Response : Type :=
| VpcsResponse (Vpcs : list Vpc)                       (* {'Vpcs': [...]} *)
| VpcResponse (VpcId : string)                         (* {'Vpc': {'VpcId': ...}} *)
| InternetGatewayResponse (InternetGatewayId : string) (* {'InternetGateway': {'InternetGatewayId': ...}} *)
| SubnetResponse (SubnetId : string)                   (* {'Subnet': {'SubnetId': ...}} *)
| RouteTablesResponse (RouteTables : list RouteTable)  (* {'RouteTables': [...]} *)
| GroupResponse (GroupId : string)                     (* {'GroupId': ...} *)
| OtherResponse.                                       (* nothing the script reads *)

(** Three kinds of call: a query ([describe_...]), a create/configure call,
    and a tagging call ([create_tags]). *)
Inductive Kind : Type := Query | Mutation | Tagging.

Definition kind (c : Call) : Kind :=
  match c with
  | describe_vpcs _ | describe_route_tables _ => Query
  | create_tags _ _ => Tagging
  | _ => Mutation
  end.


(** ** Programs *)

(** A program either ends (normally, with an exception, or by exhausting the
    bound of its loop) or performs one effect and continues.  There is no
    constructor to catch an exception: the script has none. *)
Inductive Prog (A : Type) : Type :=
| Return (a : A)
| Raise (e : Exception)
| Spin
| Input (prompt : string) (k : string -> Prog A)
| Invoke (ec2 : Client) (c : Call) (k : Response -> Prog A)
| Print (line : string) (k : Prog A).

Arguments Return {A} a.
Arguments Raise {A} e.
Arguments Spin {A}.
Arguments Input {A} prompt k.
Arguments Invoke {A} ec2 c k.
Arguments Print {A} line k.

Fixpoint bind {A B : Type} (p : Prog A) (f : A -> Prog B) : Prog B :=
  match p with
  | Return a => f a
  | Raise e => Raise e
  | Spin => Spin
  | Input prompt k => Input prompt (fun s => bind (k s) f)
  | Invoke ec2 c k => Invoke ec2 c (fun r => bind (k r) f)
  | Print line k => Print line (bind k f)
  end.

Declare Scope prog_scope.
Delimit Scope prog_scope with prog.
Notation "x <- p ;; q" := (bind p (fun x => q))
  (at level 61, p at next level, right associativity) : prog_scope.
Notation "p ;; q" := (bind p (fun _ => q))
  (at level 61, right associativity) : prog_scope.
Local Open Scope prog_scope.

Definition input (prompt : string) : Prog string := Input prompt Return.
Definition call (ec2 : Client) (c : Call) : Prog Response := Invoke ec2 c Return.
Definition print (line : string) : Prog unit := Print line (Return tt).

(** Subscripting a response. *)
Definition get_Vpcs (r : Response) : Prog (list Vpc) :=
  match r with VpcsResponse l => Return l | _ => Raise (KeyError "Vpcs") end.

Definition get_Vpc_VpcId (r : Response) : Prog string :=
  match r with VpcResponse i => Return i | _ => Raise (KeyError "Vpc") end.

Definition get_InternetGateway_InternetGatewayId (r : Response) : Prog string :=
  match r with
  | InternetGatewayResponse i => Return i
  | _ => Raise (KeyError "InternetGateway")
  end.

Definition get_Subnet_SubnetId (r : Response) : Prog string :=
  match r with SubnetResponse i => Return i | _ => Raise (KeyError "Subnet") end.

Definition get_RouteTables (r : Response) : Prog (list RouteTable) :=
  match r with
  | RouteTablesResponse l => Return l
  | _ => Raise (KeyError "RouteTables")
  end.

Definition get_GroupId (r : Response) : Prog string :=
  match r with GroupResponse i => Return i | _ => Raise (KeyError "GroupId") end.

(** [l[0]]. *)
Definition index0 {A : Type} (l : list A) : Prog A :=
  match l with x :: _ => Return x | [] => Raise IndexError end.

(** ** The script *)

Definition base_name : string := "vpc_image".
Definition cidr_block : string := "10.0.0.0/24".
Definition tenancy : string := "default".

Definition default_region : string := "eu-west-1".
Definition region_prompt : string :=
  "Enter the AWS region to use (default: eu-west-1): ".

(** [{'Name': 'tag:Name', 'Values': [name]}] *)
Definition tag_Name_filter (name : string) : Filter :=
  {| Name := "tag:Name"; Values := [name] |}.

(** [{'Key': 'Name', 'Value': value}] *)
Definition Name_tag (value : string) : Tag := {| Key := "Name"; Value := value |}.

(** [f"{base_name}_{i}"] *)
Definition suffixed (i : nat) : string := base_name ++ "_" ++ str i.

(** Lines 20-25, [while True]: the loop is bounded by [fuel] iterations and
    ends in [Spin] when the bound is reached. *)
Fixpoint name_loop (ec2 : Client) (fuel i : nat) : Prog string :=
  match fuel with
  | O => Spin
  | S fuel' =>
      let new_name := suffixed i in
      response <- call ec2 (describe_vpcs [tag_Name_filter new_name]) ;;
      existing_vpcs <- get_Vpcs response ;;
      if negb (truthy existing_vpcs) then Return new_name
      else name_loop ec2 fuel' (i + 1)
  end.

(** Lines 15-29: the name probe. *)
Definition choose_name (ec2 : Client) (fuel : nat) : Prog string :=
  response <- call ec2 (describe_vpcs [tag_Name_filter base_name]) ;;
  existing_vpcs <- get_Vpcs response ;;
  if truthy existing_vpcs then name_loop ec2 fuel 1
  else Return base_name.

(** The one ingress rule of line 59. *)
Definition ssh_from_anywhere : IpPermission :=
  {| IpProtocol := "tcp"; FromPort := 22; ToPort := 22;
     IpRanges := [ {| CidrIp := "0.0.0.0/0" |} ] |}.

(** Lines 62-66. *)
Definition line_vpc (vpc_name vpc_id region : string) : string :=
  "VPC '" ++ vpc_name ++ "' created with ID '" ++ vpc_id
    ++ "' in region '" ++ region ++ "'.".
Definition line_igw (igw_id vpc_name : string) : string :=
  "Internet gateway created with ID '" ++ igw_id
    ++ "' and attached to VPC '" ++ vpc_name ++ "'.".
Definition line_subnet (subnet_id vpc_name : string) : string :=
  "Subnet created with ID '" ++ subnet_id ++ "' in VPC '" ++ vpc_name ++ "'.".
Definition line_rt (route_table_id subnet_id : string) : string :=
  "Route table '" ++ route_table_id ++ "' associated with subnet '"
    ++ subnet_id ++ "'.".
Definition line_sg (sg_id vpc_name : string) : string :=
  "Security group '" ++ sg_id ++ "' created for VPC '" ++ vpc_name ++ "'.".

(** Lines 32-66: create, tag, report. *)
Definition provision (ec2 : Client) (region vpc_name : string) : Prog unit :=
  response <- call ec2 (create_vpc cidr_block tenancy) ;;
  vpc_id <- get_Vpc_VpcId response ;;
  call ec2 (create_tags [vpc_id] [Name_tag vpc_name]) ;;
  igw_response <- call ec2 create_internet_gateway ;;
  igw_id <- get_InternetGateway_InternetGatewayId igw_response ;;
  call ec2 (attach_internet_gateway igw_id vpc_id) ;;
  call ec2 (create_tags [igw_id] [Name_tag (vpc_name ++ "-igw")]) ;;
  subnet_response <- call ec2 (create_subnet vpc_id cidr_block) ;;
  subnet_id <- get_Subnet_SubnetId subnet_response ;;
  call ec2 (create_tags [subnet_id] [Name_tag (vpc_name ++ "-subnet")]) ;;
  route_table_response <-
    call ec2 (describe_route_tables [ {| Name := "vpc-id"; Values := [vpc_id] |} ]) ;;
  route_tables <- get_RouteTables route_table_response ;;
  route_table <- index0 route_tables ;;
  let route_table_id := RouteTableId route_table in
  call ec2 (create_route route_table_id "0.0.0.0/0" igw_id) ;;
  call ec2 (associate_route_table route_table_id subnet_id) ;;
  call ec2 (create_tags [route_table_id] [Name_tag (vpc_name ++ "-rt")]) ;;
  sg_response <-
    call ec2 (create_security_group (vpc_name ++ "-sg") "SSH access from anywhere" vpc_id) ;;
  sg_id <- get_GroupId sg_response ;;
  call ec2 (authorize_security_group_ingress sg_id [ssh_from_anywhere]) ;;
  call ec2 (create_tags [sg_id] [Name_tag (vpc_name ++ "-sg")]) ;;
  print (line_vpc vpc_name vpc_id region) ;;
  print (line_igw igw_id vpc_name) ;;
  print (line_subnet subnet_id vpc_name) ;;
  print (line_rt route_table_id subnet_id) ;;
  print (line_sg sg_id vpc_name).

(** The whole file. *)
Definition script (fuel : nat) : Prog unit :=
  answer <- input region_prompt ;;
  let region := py_or answer default_region in
  let ec2 := boto3_client "ec2" region in
  vpc_name <- choose_name ec2 fuel ;;
  provision ec2 region vpc_name.

(** ** Running a program *)

(** The world outside the script: it answers [input] and the API calls, and
    either may raise. *)
Record Env (W : Type) : Type :=
  { read_line : W -> (Exception + string) * W;
    api : Client -> Call -> W -> (Exception + Response) * W }.

Arguments read_line {W} _ _.
Arguments api {W} _ _ _ _.

(** What a run does, in order.  [input(prompt)] shows its prompt and reads a
    line: both are in the one [Read] event. *)
Inductive Event : Type :=
| Read (prompt : string) (result : Exception + string)
| Called (ec2 : Client) (c : Call) (result : Exception + Response)
| Printed (line : string).

Inductive Outcome (A : Type) : Type :=
| Finished (a : A)
| Uncaught (e : Exception)
| Looping.

Arguments Finished {A} a.
Arguments Uncaught {A} e.
Arguments Looping {A}.

Definition Run (A W : Type) : Type := (list Event * Outcome A * W)%type.

Definition trace {A W} (r : Run A W) : list Event := fst (fst r).
Definition outcome {A W} (r : Run A W) : Outcome A := snd (fst r).
Definition world {A W} (r : Run A W) : W := snd r.

Definition after {A W} (ev : Event) (r : Run A W) : Run A W :=
  (ev :: trace r, outcome r, world r).

Fixpoint run {A W : Type} (env : Env W) (p : Prog A) (w : W) : Run A W :=
  match p with
  | Return a => ([], Finished a, w)
  | Raise e => ([], Uncaught e, w)
  | Spin => ([], Looping, w)
  | Input prompt k =>
      match read_line env w with
      | (inl e, w') => ([Read prompt (inl e)], Uncaught e, w')
      | (inr s, w') => after (Read prompt (inr s)) (run env (k s) w')
      end
  | Invoke ec2 c k =>
      match api env ec2 c w with
      | (inl e, w') => ([Called ec2 c (inl e)], Uncaught e, w')
      | (inr r, w') => after (Called ec2 c (inr r)) (run env (k r) w')
      end
  | Print line k => after (Printed line) (run env k w)
  end.

(** Running [p] and then [f] on its result. *)
Definition and_then {A B W} (r : Run A W) (f : A -> W -> Run B W) : Run B W :=
  match outcome r with
  | Finished a =>
      let r' := f a (world r) in (trace r ++ trace r', outcome r', world r')
  | Uncaught e => (trace r, Uncaught e, world r)
  | Looping => (trace r, Looping, world r)
  end.

(** ** Observations on a trace *)

Definition calls (t : list Event) : list Call :=
  flat_map (fun ev => match ev with Called _ c _ => [c] | _ => [] end) t.

Definition clients (t : list Event) : list Client :=
  flat_map (fun ev => match ev with Called ec2 _ _ => [ec2] | _ => [] end) t.

Definition printed (t : list Event) : list string :=
  flat_map (fun ev => match ev with Printed line => [line] | _ => [] end) t.

Definition prompts (t : list Event) : list string :=
  flat_map (fun ev => match ev with Read prompt _ => [prompt] | _ => [] end) t.

Definition is_call (ev : Event) : bool :=
  match ev with Called _ _ _ => true | _ => false end.

Definition is_read (ev : Event) : bool :=
  match ev with Read _ _ => true | _ => false end.



(** An API call that did not raise. *)
Definition call_succeeded (ev : Event) : bool :=
  match ev with Called _ _ (inl _) => false | _ => true end.

(** A response that carries the fields the script reads from the call that
    produced it; for [describe_route_tables], at least one route table. *)
Definition usable (c : Call) (r : Response) : bool :=
  match c, r with
  | describe_vpcs _, VpcsResponse _ => true
  | create_vpc _ _, VpcResponse _ => true
  | create_internet_gateway, InternetGatewayResponse _ => true
  | create_subnet _ _, SubnetResponse _ => true
  | describe_route_tables _, RouteTablesResponse (_ :: _) => true
  | create_security_group _ _ _, GroupResponse _ => true
  | create_tags _ _, _ => true
  | attach_internet_gateway _ _, _ => true
  | create_route _ _ _, _ => true
  | associate_route_table _ _, _ => true
  | authorize_security_group_ingress _ _, _ => true
  | _, _ => false
  end.

(** An event after which the script goes on: the read returned a line, the
    call returned a usable response. *)
Definition went_well (ev : Event) : bool :=
  match ev with
  | Read _ (inr _) => true
  | Called _ c (inr r) => usable c r
  | Printed _ => true
  | _ => false
  end.



(** The part of a trace that follows the read and the name probe: from the
    first event that is neither a read nor a [describe_vpcs]. *)
Fixpoint after_name_chosen (t : list Event) : list Event :=
  match t with
  | Read _ _ :: t' => after_name_chosen t'
  | Called _ (describe_vpcs _) _ :: t' => after_name_chosen t'
  | _ => t
  end.

Definition is_tagging (c : Call) : bool :=
  match kind c with Tagging => true | _ => false end.

Definition is_mutation (c : Call) : bool :=
  match kind c with Mutation => true | _ => false end.

Definition is_query (c : Call) : bool :=
  match kind c with Query => true | _ => false end.

(** Every create/configure call of [cs] has a tagging call among the [n]
    calls that follow it. *)
Fixpoint tagged_within (n : nat) (cs : list Call) : bool :=
  match cs with
  | [] => true
  | c :: rest =>
      (if is_mutation c then existsb is_tagging (firstn n rest) else true)
      && tagged_within n rest
  end.

Definition is_ingress (c : Call) : bool :=
  match c with authorize_security_group_ingress _ _ => true | _ => false end.

(** What the script passes where a CIDR block or a Name tag goes. *)
Definition well_named (vpc_name : string) (ev : Event) : Prop :=
  match ev with
  | Called _ (create_vpc cidr _) _ => cidr = "10.0.0.0/24"
  | Called _ (create_subnet _ cidr) _ => cidr = "10.0.0.0/24"
  | Called _ (create_tags _ tags) _ =>
      exists suffix,
        In suffix [""; "-igw"; "-subnet"; "-rt"; "-sg"] /\
        tags = [ {| Key := "Name"; Value := vpc_name ++ suffix |} ]
  | _ => True
  end.

(** The client an event was issued on, if it is a call. *)
Definition on_client (ec2 : Client) (ev : Event) : Prop :=
  match ev with Called cl _ _ => cl = ec2 | _ => True end.

(** Whether every event of a run went well, read off its outcome. *)
Definition smooth {A} (o : Outcome A) : bool :=
  match o with Uncaught _ => false | _ => true end.

(** ** The VPCs of an account and their Name tags *)

Definition has_Name (name : string) (v : Vpc) : bool :=
  existsb (fun t => (Key t =? "Name") && (Value t =? name)) (Tags v).

(** The VPCs among [vpcs] tagged [Name = name]. *)
Definition tagged (vpcs : list Vpc) (name : string) : list Vpc :=
  filter (has_Name name) vpcs.

(** Every value a VPC of [vpcs] carries in a tag. *)
Definition names_taken (vpcs : list Vpc) : list string :=
  flat_map (fun v => map Value (Tags v)) vpcs.

(** [i] is the first suffix, from 1, whose name tags no VPC. *)
Definition first_unused (vpcs : list Vpc) (i : nat) : Prop :=
  1 <= i /\ tagged vpcs (suffixed i) = [] /\
  forall j, 1 <= j < i -> tagged vpcs (suffixed j) <> [].

(** The probe of one suffix, as it appears in a trace. *)
Definition probe (ec2 : Client) (vpcs : list Vpc) (name : string) : Event :=
  Called ec2 (describe_vpcs [tag_Name_filter name])
         (inr (VpcsResponse (tagged vpcs name))).

(** An event of the name probe: a [describe_vpcs] on one Name tag. *)
Definition is_probe (ec2 : Client) (ev : Event) : Prop :=
  exists name result,
    ev = Called ec2 (describe_vpcs [tag_Name_filter name]) result.

(** A name the probe can settle on. *)
Definition candidate (name : string) : Prop :=
  name = base_name \/ exists i, 1 <= i /\ name = suffixed i.

(** ** What a complete run looks like *)

(** The identifiers the API hands out during a run. *)
Record Ids : Type :=
  { vpc_id : string; igw_id : string; subnet_id : string;
    route_table_id : string; sg_id : string }.

(** Lines 32-60 in order: the calls of a run in which nothing raises. *)
Definition plan (vpc_name : string) (ids : Ids) : list Call :=
  [ create_vpc cidr_block tenancy;
    create_tags [vpc_id ids] [Name_tag vpc_name];
    create_internet_gateway;
    attach_internet_gateway (igw_id ids) (vpc_id ids);
    create_tags [igw_id ids] [Name_tag (vpc_name ++ "-igw")];
    create_subnet (vpc_id ids) cidr_block;
    create_tags [subnet_id ids] [Name_tag (vpc_name ++ "-subnet")];
    describe_route_tables [ {| Name := "vpc-id"; Values := [vpc_id ids] |} ];
    create_route (route_table_id ids) "0.0.0.0/0" (igw_id ids);
    associate_route_table (route_table_id ids) (subnet_id ids);
    create_tags [route_table_id ids] [Name_tag (vpc_name ++ "-rt")];
    create_security_group (vpc_name ++ "-sg") "SSH access from anywhere" (vpc_id ids);
    authorize_security_group_ingress (sg_id ids) [ssh_from_anywhere];
    create_tags [sg_id ids] [Name_tag (vpc_name ++ "-sg")] ].

(** Lines 62-66 in order. *)
Definition summary (region vpc_name : string) (ids : Ids) : list string :=
  [ line_vpc vpc_name (vpc_id ids) region;
    line_igw (igw_id ids) vpc_name;
    line_subnet (subnet_id ids) vpc_name;
    line_rt (route_table_id ids) (subnet_id ids);
    line_sg (sg_id ids) vpc_name ].

(** The identifiers are the ones the API returned: each occurs in the
    response to the call that created (or, for the route table, listed) the
    resource. *)
Definition returned (t : list Event) (ids : Ids) : Prop :=
  (exists ec2, In (Called ec2 (create_vpc cidr_block tenancy)
                          (inr (VpcResponse (vpc_id ids)))) t) /\
  (exists ec2, In (Called ec2 create_internet_gateway
                          (inr (InternetGatewayResponse (igw_id ids)))) t) /\
  (exists ec2, In (Called ec2 (create_subnet (vpc_id ids) cidr_block)
                          (inr (SubnetResponse (subnet_id ids)))) t) /\
  (exists ec2 rest,
      In (Called ec2 (describe_route_tables
                        [ {| Name := "vpc-id"; Values := [vpc_id ids] |} ])
                 (inr (RouteTablesResponse
                         ({| RouteTableId := route_table_id ids |} :: rest)))) t) /\
  (exists ec2 name,
      In (Called ec2 (create_security_group name "SSH access from anywhere" (vpc_id ids))
                 (inr (GroupResponse (sg_id ids)))) t).

(** ** Loop bounds *)


(** ** The shapes of a run *)

(** The shapes a run of the script can take. *)
Inductive Anatomy {W} (env : Env W) (fuel : nat) (w : W) (r : Run unit W) : Prop :=
| no_input e w1 :
    read_line env w = (inl e, w1) ->
    trace r = [Read region_prompt (inl e)] ->
    outcome r = Uncaught e ->
    Anatomy env fuel w r
| no_name answer w1 :
    read_line env w = (inr answer, w1) ->
    let ec2 := boto3_client "ec2" (py_or answer default_region) in
    let r1 := run env (choose_name ec2 fuel) w1 in
    (forall name, outcome r1 <> Finished name) ->
    trace r = Read region_prompt (inr answer) :: trace r1 ->
    smooth (outcome r) = smooth (outcome r1) ->
    (outcome r = Looping <-> outcome r1 = Looping) ->
    outcome r <> Finished tt ->
    Anatomy env fuel w r
| named answer w1 vpc_name :
    read_line env w = (inr answer, w1) ->
    let region := py_or answer default_region in
    let ec2 := boto3_client "ec2" region in
    let r1 := run env (choose_name ec2 fuel) w1 in
    let r2 := run env (provision ec2 region vpc_name) (world r1) in
    outcome r1 = Finished vpc_name ->
    trace r = Read region_prompt (inr answer) :: trace r1 ++ trace r2 ->
    outcome r = outcome r2 ->
    Anatomy env fuel w r.

(** ** Two environments to run the script against *)

(** A tape: the lines waiting on stdin and the results the API will give,
    whatever is called. *)
Record Tape : Type :=
  { stdin : list string; replies : list (Exception + Response) }.

Definition canned : Env Tape :=
  {| read_line := fun w =>
       match stdin w with
       | [] => (inl EOFError, w)
       | s :: rest => (inr s, {| stdin := rest; replies := replies w |})
       end;
     api := fun _ _ w =>
       match replies w with
       | [] => (inl (ApiError "RequestLimitExceeded"), w)
       | r :: rest => (r, {| stdin := stdin w; replies := rest |})
       end |}.

(** A small account: VPCs with their tags, a counter for fresh identifiers,
    and the lines waiting on stdin.  Only VPCs are remembered. *)
Record Account : Type :=
  { typed : list string; vpcs : list Vpc; serial : nat }.

Definition matches (f : Filter) (v : Vpc) : bool :=
  if Name f =? "tag:Name" then existsb (fun n => has_Name n v) (Values f)
  else true.

Definition retag (Resources : list string) (tags : list Tag) (v : Vpc) : Vpc :=
  if existsb (String.eqb (VpcId v)) Resources
  then {| VpcId := VpcId v; Tags := tags ++ Tags v |}
  else v.

Definition fresh (prefix : string) (w : Account) : string * Account :=
  ((prefix ++ str (serial w))%string,
   {| typed := typed w; vpcs := vpcs w; serial := S (serial w) |}).

Definition account : Env Account :=
  {| read_line := fun w =>
       match typed w with
       | [] => (inl EOFError, w)
       | s :: rest =>
           (inr s, {| typed := rest; vpcs := vpcs w; serial := serial w |})
       end;
     api := fun _ c w =>
       match c with
       | describe_vpcs fs =>
           (inr (VpcsResponse
                   (filter (fun v => forallb (fun f => matches f v) fs) (vpcs w))), w)
       | create_vpc _ _ =>
           let (i, w') := fresh "vpc-" w in
           (inr (VpcResponse i),
            {| typed := typed w';
               vpcs := vpcs w' ++ [ {| VpcId := i; Tags := [] |} ];
               serial := serial w' |})
       | create_tags rs ts =>
           (inr OtherResponse,
            {| typed := typed w; vpcs := map (retag rs ts) (vpcs w);
               serial := serial w |})
       | create_internet_gateway =>
           let (i, w') := fresh "igw-" w in (inr (InternetGatewayResponse i), w')
       | create_subnet _ _ =>
           let (i, w') := fresh "subnet-" w in (inr (SubnetResponse i), w')
       | describe_route_tables _ =>
           (inr (RouteTablesResponse [ {| RouteTableId := "rtb-main" |} ]), w)
       | create_security_group _ _ _ =>
           let (i, w') := fresh "sg-" w in (inr (GroupResponse i), w')
       | attach_internet_gateway _ _ | create_route _ _ _
       | associate_route_table _ _ | authorize_security_group_ingress _ _ =>
           (inr OtherResponse, w)
       end |}.

(** ** Sample worlds *)

(** An account with no VPC; the user just presses return. *)
Definition vacant : Account := {| typed := [""]; vpcs := []; serial := 0 |}.

(** An account where ['vpc_image'] and ['vpc_image_1'] are taken; a third
    VPC carries the text ['vpc_image_2'], but not as its Name. *)
Definition crowded : Account :=
  {| typed := ["us-east-1"];
     vpcs := [ {| VpcId := "vpc-a"; Tags := [Name_tag "vpc_image"] |};
               {| VpcId := "vpc-b"; Tags := [Name_tag "vpc_image_1"] |};
               {| VpcId := "vpc-c";
                  Tags := [ {| Key := "Project"; Value := "vpc_image_2" |} ] |} ];
     serial := 0 |}.

(** The results [vacant] gives to a complete run, on a tape. *)
Definition recorded : Tape :=
  {| stdin := [""];
     replies :=
       [ inr (VpcsResponse []);
         inr (VpcResponse "vpc-0");
         inr OtherResponse;
         inr (InternetGatewayResponse "igw-1");
         inr OtherResponse;
         inr OtherResponse;
         inr (SubnetResponse "subnet-2");
         inr OtherResponse;
         inr (RouteTablesResponse [ {| RouteTableId := "rtb-main" |} ]);
         inr OtherResponse;
         inr OtherResponse;
         inr OtherResponse;
         inr (GroupResponse "sg-3");
         inr OtherResponse;
         inr OtherResponse ] |}.

(** Every call succeeds, but [describe_route_tables] lists no route table. *)
Definition no_route_table : Tape :=
  {| stdin := [""];
     replies :=
       [ inr (VpcsResponse []);
         inr (VpcResponse "vpc-0");
         inr OtherResponse;
         inr (InternetGatewayResponse "igw-1");
         inr OtherResponse;
         inr OtherResponse;
         inr (SubnetResponse "subnet-2");
         inr OtherResponse;
         inr (RouteTablesResponse []) ] |}.


(** ** Reading a run back *)

(** The first event of [t] that [f] picks something from. *)
Fixpoint first_returned {A : Type} (f : Event -> option A) (t : list Event)
  : option A :=
  match t with
  | [] => None
  | ev :: t' =>
      match f ev with Some a => Some a | None => first_returned f t' end
  end.

Definition or_empty (o : option string) : string :=
  match o with Some s => s | None => "" end.

(** The identifiers the API returned in [t]: the VPC of [create_vpc], the
    gateway of [create_internet_gateway], the subnet of [create_subnet], the
    first route table listed by [describe_route_tables], the group of
    [create_security_group]; empty where [t] has no such response. *)
Definition ids_of (t : list Event) : Ids :=
  {| vpc_id :=
       or_empty (first_returned
         (fun ev => match ev with
                    | Called _ (create_vpc _ _) (inr (VpcResponse i)) => Some i
                    | _ => None
                    end) t);
     igw_id :=
       or_empty (first_returned
         (fun ev => match ev with
                    | Called _ create_internet_gateway
                             (inr (InternetGatewayResponse i)) => Some i
                    | _ => None
                    end) t);
     subnet_id :=
       or_empty (first_returned
         (fun ev => match ev with
                    | Called _ (create_subnet _ _) (inr (SubnetResponse i)) => Some i
                    | _ => None
                    end) t);
     route_table_id :=
       or_empty (first_returned
         (fun ev => match ev with
                    | Called _ (describe_route_tables _)
                             (inr (RouteTablesResponse (rt :: _))) =>
                        Some (RouteTableId rt)
                    | _ => None
                    end) t);
     sg_id :=
       or_empty (first_returned
         (fun ev => match ev with
                    | Called _ (create_security_group _ _ _)
                             (inr (GroupResponse i)) => Some i
                    | _ => None
                    end) t) |}.




(** The call that probes one name. *)
Definition probe_call (name : string) : Call := describe_vpcs [tag_Name_filter name].

(** The names the probe tries, in order, up to suffix [k]. *)
Definition names_tried (k : nat) : list string :=
  base_name :: map suffixed (seq 1 k).

(** A [describe_vpcs] on a Name tag that found some VPC. *)
Definition found_taken (ec2 : Client) (ev : Event) : Prop :=
  exists name v l,
    ev = Called ec2 (describe_vpcs [tag_Name_filter name])
                (inr (VpcsResponse (v :: l))).

(** An environment in which every [describe_vpcs] finds a VPC, whatever the
    filter; every other call is refused. *)
Definition stubborn : Env unit :=
  {| read_line := fun w => (inr "", w);
     api := fun _ c w =>
       match c with
       | describe_vpcs _ =>
           (inr (VpcsResponse [ {| VpcId := "vpc-x"; Tags := [] |} ]), w)
       | _ => (inl (ApiError "UnauthorizedOperation"), w)
       end |}.

(** Every call succeeds, and two route tables are listed for the VPC. *)
Definition two_route_tables : Tape :=
  {| stdin := ["ap-south-1"];
     replies :=
       [ inr (VpcsResponse []);
         inr (VpcResponse "vpc-0");
         inr OtherResponse;
         inr (InternetGatewayResponse "igw-1");
         inr OtherResponse;
         inr OtherResponse;
         inr (SubnetResponse "subnet-2");
         inr OtherResponse;
         inr (RouteTablesResponse [ {| RouteTableId := "rtb-a" |};
                                    {| RouteTableId := "rtb-b" |} ]);
         inr OtherResponse;
         inr OtherResponse;
         inr OtherResponse;
         inr (GroupResponse "sg-3");
         inr OtherResponse;
         inr OtherResponse ] |}.


(** ** Tactics *)

(** Case analysis on a run of [provision]: every call either raises, or
    returns a response the next subscript rejects, or lets the script go on. *)
Ltac walk env :=
  repeat first
    [ progress cbn [provision call print bind run after trace outcome world fst snd
                    get_Vpc_VpcId get_InternetGateway_InternetGatewayId
                    get_Subnet_SubnetId get_RouteTables get_GroupId index0]
    | match goal with
      | |- context [api env ?cl ?c ?w] =>
          let e := fresh "e" in
          let r := fresh "r" in
          let w' := fresh "w" in
          destruct (api env cl c w) as [[e | r] w']
      | |- context [get_Vpc_VpcId ?r] => is_var r; destruct r
      | |- context [get_InternetGateway_InternetGatewayId ?r] => is_var r; destruct r
      | |- context [get_Subnet_SubnetId ?r] => is_var r; destruct r
      | |- context [get_RouteTables ?r] => is_var r; destruct r
      | |- context [get_GroupId ?r] => is_var r; destruct r
      | |- context [index0 ?l] => is_var l; destruct l
      end ].

Ltac find_in := cbn [In]; repeat first [ left; reflexivity | right ].

(** * Properties of the model *)

(** ** Running programs in sequence *)

Lemma run_surjective {A W} (r : Run A W) : r = (trace r, outcome r, world r).
Proof. destruct r as [[t o] w]. reflexivity. Qed.

Lemma trace_after {A W} ev (r : Run A W) : trace (after ev r) = ev :: trace r.
Proof. reflexivity. Qed.

Lemma outcome_after {A W} ev (r : Run A W) : outcome (after ev r) = outcome r.
Proof. reflexivity. Qed.


Lemma run_bind {A B W} (env : Env W) (p : Prog A) (f : A -> Prog B) (w : W) :
  run env (bind p f) w = and_then (run env p w) (fun a w' => run env (f a) w').
Proof.
  revert w. induction p as [a | e | | prompt k IH | ec2 c k IH | line k IH];
    intros w; simpl.
  - unfold and_then. simpl. apply run_surjective.
  - reflexivity.
  - reflexivity.
  - destruct (read_line env w) as [[e | s] w']; [reflexivity |].
    rewrite IH. unfold and_then, after. simpl.
    destruct (outcome (run env (k s) w')); reflexivity.
  - destruct (api env ec2 c w) as [[e | r] w']; [reflexivity |].
    rewrite IH. unfold and_then, after. simpl.
    destruct (outcome (run env (k r) w')); reflexivity.
  - rewrite IH. unfold and_then, after. simpl.
    destruct (outcome (run env k w)); reflexivity.
Qed.


(** ** An exception ends the run *)



(** ** The answers decide the run *)







(** ** The name probe *)

(** If some suffix is unused, there is a first one. *)
Lemma first_unused_exists (vpcs : list Vpc) :
  (exists i, 1 <= i /\ tagged vpcs (suffixed i) = []) ->
  exists k, first_unused vpcs k.
Proof.
  intros Hex.
  destruct (dec_inh_nat_subset_has_unique_least_element
              (fun n => 1 <= n /\ tagged vpcs (suffixed n) = [])) as (k & [[Hk Hfree] Hleast] & _).
  - intros n. destruct (le_lt_dec 1 n) as [Hn | Hn].
    + destruct (tagged vpcs (suffixed n)) eqn:E.
      * left. auto.
      * right. intros [_ H]. discriminate H.
    + right. intros [H _]. lia.
  - exact Hex.
  - exists k. repeat split; auto.
    intros j Hj Hnil. specialize (Hleast j (conj (proj1 Hj) Hnil)). lia.
Qed.

Lemma first_unused_unique (vpcs : list Vpc) i j :
  first_unused vpcs i -> first_unused vpcs j -> i = j.
Proof.
  intros (Hi & Hfi & Hbi) (Hj & Hfj & Hbj).
  destruct (lt_eq_lt_dec i j) as [[Hlt | Heq] | Hgt]; [| exact Heq |].
  - destruct (Hbj i); [lia | exact Hfi].
  - destruct (Hbi j); [lia | exact Hfj].
Qed.

Section NameProbe.
Context {W : Type} (env : Env W) (ec2 : Client) (w : W) (vpcs : list Vpc).

(** While the script probes, the account holds the VPCs [vpcs], and
    [describe_vpcs] filtered on a Name tag returns those that carry it. *)
Hypothesis describe_tagged :
  forall name,
    api env ec2 (describe_vpcs [tag_Name_filter name]) w
    = (inr (VpcsResponse (tagged vpcs name)), w).

(** The loop started at [i] probes [i], [i+1], ... and stops at the first
    unused suffix [i + k], provided the bound allows [k + 1] iterations. *)
Lemma name_loop_run k :
  forall fuel i,
    (forall j, i <= j < i + k -> tagged vpcs (suffixed j) <> []) ->
    tagged vpcs (suffixed (i + k)) = [] ->
    k < fuel ->
    run env (name_loop ec2 fuel i) w
    = (map (fun j => probe ec2 vpcs (suffixed j)) (seq i (S k)),
       Finished (suffixed (i + k)), w).
Proof.
  induction k as [| k IH]; intros fuel i Hused Hfree Hfuel;
    (destruct fuel as [| fuel]; [lia |]);
    cbn [name_loop call bind run]; rewrite describe_tagged;
    cbn [get_Vpcs bind].
  - rewrite Nat.add_0_r in *. unfold probe. cbn [seq map].
    rewrite Hfree. reflexivity.
  - destruct (tagged vpcs (suffixed i)) eqn:E.
    + exfalso. apply (Hused i); [lia | exact E].
    + cbn [truthy negb]. rewrite (IH fuel (i + 1)).
      * unfold after, probe. cbn [trace outcome world fst snd].
        replace (i + 1) with (S i) by lia.
        replace (S i + k) with (i + S k) by lia.
        cbn [seq map]. rewrite E. reflexivity.
      * intros j Hj. apply Hused. lia.
      * replace (i + 1 + k) with (i + S k) by lia. exact Hfree.
      * lia.
Qed.

Lemma choose_name_unused fuel :
  tagged vpcs base_name = [] ->
  run env (choose_name ec2 fuel) w
  = ([probe ec2 vpcs base_name], Finished base_name, w).
Proof.
  intros H. unfold choose_name. cbn [call bind run].
  rewrite describe_tagged. cbn [get_Vpcs bind]. unfold probe.
  rewrite H. reflexivity.
Qed.

Lemma choose_name_used fuel i :
  tagged vpcs base_name <> [] ->
  first_unused vpcs i ->
  i <= fuel ->
  run env (choose_name ec2 fuel) w
  = (probe ec2 vpcs base_name
       :: map (fun j => probe ec2 vpcs (suffixed j)) (seq 1 i),
     Finished (suffixed i), w).
Proof.
  intros Hbase (Hi & Hfree & Hused) Hfuel.
  unfold choose_name. cbn [call bind run].
  rewrite describe_tagged. cbn [get_Vpcs bind].
  destruct (tagged vpcs base_name) eqn:E; [contradiction Hbase; reflexivity |].
  cbn [truthy].
  destruct i as [| k]; [lia |].
  rewrite (name_loop_run k fuel 1).
  - unfold after, probe. cbn [trace outcome world fst snd]. rewrite E.
    reflexivity.
  - intros j Hj. apply Hused. lia.
  - exact Hfree.
  - lia.
Qed.
End NameProbe.

(** The account of the second environment answers the probe as assumed. *)
Lemma account_describe ec2 name (w : Account) :
  api account ec2 (describe_vpcs [tag_Name_filter name]) w
  = (inr (VpcsResponse (tagged (vpcs w) name)), w).
Proof.
  cbn [api account]. unfold tagged. do 3 f_equal.
  apply filter_ext. intros v. cbn.
  rewrite orb_false_r, andb_true_r. reflexivity.
Qed.

(** ** The script, phase by phase *)

Lemma forallb_went_well_cons ev t :
  forallb went_well (ev :: t) = went_well ev && forallb went_well t.
Proof. reflexivity. Qed.

Lemma name_loop_trace {W} (env : Env W) ec2 fuel :
  forall i w,
    let r := run env (name_loop ec2 fuel i) w in
    Forall (is_probe ec2) (trace r) /\
    forallb went_well (trace r) = smooth (outcome r) /\
    (forall name, outcome r = Finished name ->
                  exists j, i <= j /\ name = suffixed j).
Proof.
  induction fuel as [| fuel IH]; intros i w; cbn [name_loop call bind run].
  - repeat split; [constructor | discriminate].
  - destruct (api env ec2 _ w) as [[e | r] w'].
    + repeat split.
      * constructor; [eexists _, _; reflexivity | constructor].
      * discriminate.
    + rewrite trace_after, outcome_after.
      assert (Hp : is_probe ec2 (Called ec2 (describe_vpcs [tag_Name_filter (suffixed i)]) (inr r)))
        by (eexists _, _; reflexivity).
      destruct r as [l | | | | | |]; cbn [get_Vpcs bind];
        try (repeat split; [repeat constructor; exact Hp | discriminate]).
      destruct l as [| v l]; cbn [truthy negb].
      * repeat split; [repeat constructor; exact Hp |].
        cbn [run outcome fst snd]. intros name H. inversion H. exists i. auto.
      * destruct (IH (i + 1) w') as (Hf & Hs & Hn).
        repeat split.
        -- constructor; [exact Hp | exact Hf].
        -- rewrite forallb_went_well_cons, Hs. reflexivity.
        -- intros name H. destruct (Hn name H) as (j & Hj & ->).
           exists j. split; [lia | reflexivity].
Qed.

Lemma choose_name_trace {W} (env : Env W) ec2 fuel w :
  let r := run env (choose_name ec2 fuel) w in
  Forall (is_probe ec2) (trace r) /\
  forallb went_well (trace r) = smooth (outcome r) /\
  (forall name, outcome r = Finished name -> candidate name).
Proof.
  unfold choose_name. cbn [call bind run].
  destruct (api env ec2 _ w) as [[e | r] w'].
  - repeat split.
    + constructor; [eexists _, _; reflexivity | constructor].
    + discriminate.
  - rewrite trace_after, outcome_after.
    assert (Hp : is_probe ec2 (Called ec2 (describe_vpcs [tag_Name_filter base_name]) (inr r)))
      by (eexists _, _; reflexivity).
    destruct r as [l | | | | | |]; cbn [get_Vpcs bind];
      try (repeat split; [repeat constructor; exact Hp | discriminate]).
    destruct l as [| v l]; cbn [truthy].
    + repeat split; [repeat constructor; exact Hp |].
      cbn [run outcome fst snd]. intros name H. inversion H. left. reflexivity.
    + destruct (name_loop_trace env ec2 fuel 1 w') as (Hf & Hs & Hn).
      repeat split.
      * constructor; [exact Hp | exact Hf].
      * rewrite forallb_went_well_cons, Hs. reflexivity.
      * intros name H. destruct (Hn name H) as (j & Hj & ->).
        right. exists j. auto.
Qed.

(** A run of [provision] either goes through the whole plan and prints the
    summary, or ends in an exception at an event that did not go well,
    having printed nothing. *)
Lemma provision_run {W} (env : Env W) ec2 region vpc_name w :
  let r := run env (provision ec2 region vpc_name) w in
  (outcome r = Finished tt /\
   forallb went_well (trace r) = true /\
   exists ids body,
     trace r = body ++ map Printed (summary region vpc_name ids) /\
     forallb is_call body = true /\
     calls body = plan vpc_name ids /\
     returned body ids)
  \/
  ((exists e, outcome r = Uncaught e) /\
   forallb went_well (trace r) = false /\
   printed (trace r) = []).
Proof.
  walk env.
  all: try (right; repeat split; [eexists; reflexivity]).
  left. repeat split.
  match goal with
  | |- context [Printed (line_vpc _ ?v _)] =>
    match goal with
    | |- context [Printed (line_igw ?g _)] =>
      match goal with
      | |- context [Printed (line_rt ?t ?s)] =>
        match goal with
        | |- context [Printed (line_sg ?q _)] =>
            exists {| vpc_id := v; igw_id := g; subnet_id := s;
                      route_table_id := t; sg_id := q |}
        end
      end
    end
  end.
  match goal with
  | |- exists body, ?t = _ /\ _ => exists (firstn 14 t)
  end.
  cbn [firstn]. split; [reflexivity |].
  split; [reflexivity |]. split; [reflexivity |].
  unfold returned. cbn [vpc_id igw_id subnet_id route_table_id sg_id].
  repeat split.
  - eexists. find_in.
  - eexists. find_in.
  - eexists. find_in.
  - destruct r3 as [rt]. eexists _, _. find_in.
  - eexists _, _. find_in.
Qed.

Lemma append_empty_r (s : string) : (s ++ "")%string = s.
Proof. induction s as [| a s IH]; simpl; [| rewrite IH]; reflexivity. Qed.

Lemma run_script {W} (env : Env W) fuel w :
  run env (script fuel) w =
  match read_line env w with
  | (inl e, w1) => ([Read region_prompt (inl e)], Uncaught e, w1)
  | (inr answer, w1) =>
      let region := py_or answer default_region in
      let ec2 := boto3_client "ec2" region in
      after (Read region_prompt (inr answer))
            (and_then (run env (choose_name ec2 fuel) w1)
                      (fun vpc_name w2 => run env (provision ec2 region vpc_name) w2))
  end.
Proof.
  unfold script, input. cbn [bind run].
  destruct (read_line env w) as [[e | answer] w1]; [reflexivity |].
  rewrite run_bind. reflexivity.
Qed.

Lemma script_anatomy {W} (env : Env W) fuel w :
  Anatomy env fuel w (run env (script fuel) w).
Proof.
  rewrite run_script.
  destruct (read_line env w) as [[e | answer] w1] eqn:E.
  - eapply no_input; [exact E | reflexivity | reflexivity].
  - cbv zeta. unfold and_then.
    destruct (outcome (run env (choose_name _ fuel) w1)) as [name | e |] eqn:O.
    + eapply named; [exact E | exact O | reflexivity | reflexivity].
    + eapply no_name; [exact E | | reflexivity | | | ];
        cbn [after trace outcome fst snd]; rewrite ?O;
        try discriminate; try reflexivity.
      split; discriminate.
    + eapply no_name; [exact E | | reflexivity | | | ];
        cbn [after trace outcome fst snd]; rewrite ?O;
        try discriminate; try reflexivity.
      split; reflexivity.
Qed.

(** ** What [provision] does on every run *)

Lemma provision_clients {W} (env : Env W) ec2 region vpc_name w :
  Forall (on_client ec2) (trace (run env (provision ec2 region vpc_name) w)).
Proof. walk env; repeat constructor. Qed.

Lemma provision_prompts {W} (env : Env W) ec2 region vpc_name w :
  prompts (trace (run env (provision ec2 region vpc_name) w)) = [].
Proof. walk env; reflexivity. Qed.

Lemma provision_after_name {W} (env : Env W) ec2 region vpc_name w :
  let t := trace (run env (provision ec2 region vpc_name) w) in
  after_name_chosen t = t.
Proof. walk env; reflexivity. Qed.

Lemma provision_names {W} (env : Env W) ec2 region vpc_name w :
  Forall (well_named vpc_name) (trace (run env (provision ec2 region vpc_name) w)).
Proof.
  walk env;
    repeat (constructor;
            [ first [ reflexivity
                    | exact I
                    | exists ""; split; [find_in | rewrite append_empty_r; reflexivity]
                    | eexists; split; [| reflexivity]; find_in ] | ]);
    constructor.
Qed.

Lemma provision_subnet {W} (env : Env W) ec2 region vpc_name w :
  let t := trace (run env (provision ec2 region vpc_name) w) in
  forall cl v cidr result,
    In (Called cl (create_subnet v cidr) result) t ->
    cidr = cidr_block /\
    exists cl', In (Called cl' (create_vpc cidr_block tenancy) (inr (VpcResponse v))) t.
Proof.
  walk env; intros cl v cidr result H; cbn [In] in H;
    repeat (destruct H as [H | H]; [try discriminate H |]);
    try contradiction;
    inversion H; subst; (split; [reflexivity | eexists; find_in]).
Qed.

Lemma provision_ingress {W} (env : Env W) ec2 region vpc_name w :
  let t := trace (run env (provision ec2 region vpc_name) w) in
  (forall cl gid perms result,
      In (Called cl (authorize_security_group_ingress gid perms) result) t ->
      perms = [ssh_from_anywhere] /\
      exists cl1 cl2 vpc group_name,
        In (Called cl1 (create_vpc cidr_block tenancy) (inr (VpcResponse vpc))) t /\
        In (Called cl2 (create_security_group group_name "SSH access from anywhere" vpc)
                   (inr (GroupResponse gid))) t) /\
  List.length (filter is_ingress (calls t)) <= 1.
Proof.
  walk env; (split; [| cbn; lia]);
    intros cl gid perms result H; cbn [In] in H;
    repeat (destruct H as [H | H]; [try discriminate H |]);
    try contradiction;
    inversion H; subst;
    (split; [reflexivity | eexists _, _, _, _; split; find_in]).
Qed.

(** ** The script as a whole *)

Lemma probes_prompts ec2 t : Forall (is_probe ec2) t -> prompts t = [].
Proof.
  induction 1 as [| ev t (name & result & ->) _ IH]; [reflexivity | exact IH].
Qed.

Lemma probes_printed ec2 t : Forall (is_probe ec2) t -> printed t = [].
Proof.
  induction 1 as [| ev t (name & result & ->) _ IH]; [reflexivity | exact IH].
Qed.

Lemma probes_clients ec2 t : Forall (is_probe ec2) t -> Forall (on_client ec2) t.
Proof.
  induction 1 as [| ev t (name & result & ->) _ IH]; constructor;
    [reflexivity | exact IH].
Qed.

Lemma probes_named ec2 vpc_name t :
  Forall (is_probe ec2) t -> Forall (well_named vpc_name) t.
Proof.
  induction 1 as [| ev t (name & result & ->) _ IH]; constructor;
    [exact I | exact IH].
Qed.

Lemma probes_skipped ec2 t rest :
  Forall (is_probe ec2) t -> after_name_chosen (t ++ rest) = after_name_chosen rest.
Proof.
  induction 1 as [| ev t (name & result & ->) _ IH]; [reflexivity | exact IH].
Qed.

Lemma probes_no_ingress ec2 t :
  Forall (is_probe ec2) t -> filter is_ingress (calls t) = [].
Proof.
  induction 1 as [| ev t (name & result & ->) _ IH]; [reflexivity | exact IH].
Qed.

Lemma prompts_app t u : prompts (t ++ u) = prompts t ++ prompts u.
Proof. apply flat_map_app. Qed.

Lemma printed_app t u : printed (t ++ u) = printed t ++ printed u.
Proof. apply flat_map_app. Qed.

Lemma calls_app t u : calls (t ++ u) = calls t ++ calls u.
Proof. apply flat_map_app. Qed.

Lemma calls_Printed lines : calls (map Printed lines) = [].
Proof. induction lines as [| l lines IH]; [reflexivity | exact IH]. Qed.

Lemma printed_Printed lines : printed (map Printed lines) = lines.
Proof.
  induction lines as [| l lines IH]; [reflexivity |].
  cbn. f_equal. exact IH.
Qed.

Lemma printed_calls body : forallb is_call body = true -> printed body = [].
Proof.
  induction body as [| ev body IH]; [reflexivity |].
  destruct ev; cbn; try discriminate. exact IH.
Qed.

(** After the read, every event is a call on the client made for the region,
    or a print; nothing is read again. *)
Lemma script_after_read {W} (env : Env W) fuel w answer w1 :
  read_line env w = (inr answer, w1) ->
  exists rest,
    trace (run env (script fuel) w) = Read region_prompt (inr answer) :: rest /\
    prompts rest = [] /\
    Forall (on_client (boto3_client "ec2" (py_or answer default_region))) rest.
Proof.
  intros E.
  destruct (script_anatomy env fuel w)
    as [e w1' E' Ht Ho | answer' w1' E' ec2 r1 Hn Ht Hs Hl Hf
        | answer' w1' vpc_name E' region ec2 r1 r2 Ho Ht Ho2];
    rewrite E in E'; inversion E'; subst answer' w1'.
  - destruct (choose_name_trace env ec2 fuel w1) as (Hp & _ & _).
    exists (trace r1). repeat split; [exact Ht | | ].
    + apply (probes_prompts ec2). exact Hp.
    + apply probes_clients. exact Hp.
  - destruct (choose_name_trace env ec2 fuel w1) as (Hp & _ & _).
    exists (trace r1 ++ trace r2). repeat split; [exact Ht | | ].
    + rewrite prompts_app, (probes_prompts ec2) by exact Hp.
      apply provision_prompts.
    + apply Forall_app. split; [apply probes_clients; exact Hp |].
      apply provision_clients.
Qed.


(** Every event of a run went well exactly when no exception ended it. *)
Lemma script_smooth {W} (env : Env W) fuel w :
  let r := run env (script fuel) w in
  forallb went_well (trace r) = smooth (outcome r).
Proof.
  intros r. subst r.
  destruct (script_anatomy env fuel w)
    as [e w1 E Ht Ho | answer w1 E ec2 r1 Hn Ht Hs Hl Hf
        | answer w1 vpc_name E region ec2 r1 r2 Ho Ht Ho2].
  - rewrite Ht, Ho. reflexivity.
  - rewrite Ht, Hs. cbn [forallb went_well andb].
    apply (choose_name_trace env ec2 fuel w1).
  - rewrite Ht, Ho2. cbn [forallb went_well andb]. rewrite forallb_app.
    destruct (choose_name_trace env ec2 fuel w1) as (_ & Hw & _).
    fold r1 in Hw. rewrite Hw, Ho. cbn [smooth andb].
    destruct (provision_run env ec2 region vpc_name (world r1))
      as [(Hfin & Hok & _) | ((e & He) & Hbad & _)]; subst r2.
    + rewrite Hok, Hfin. reflexivity.
    + rewrite Hbad, He. reflexivity.
Qed.

(** A run that finishes read a region, settled on a name, went through the
    plan and printed the summary. *)
Lemma script_finished {W} (env : Env W) fuel w :
  let r := run env (script fuel) w in
  outcome r = Finished tt ->
  exists answer w1 vpc_name ids body,
    read_line env w = (inr answer, w1) /\
    let region := py_or answer default_region in
    let r1 := run env (choose_name (boto3_client "ec2" region) fuel) w1 in
    outcome r1 = Finished vpc_name /\
    trace r = (Read region_prompt (inr answer) :: trace r1 ++ body)
                ++ map Printed (summary region vpc_name ids) /\
    forallb is_call body = true /\
    calls body = plan vpc_name ids /\
    returned body ids.
Proof.
  intros r Hfin. subst r.
  destruct (script_anatomy env fuel w)
    as [e w1 E Ht Ho | answer w1 E ec2 r1 Hn Ht Hs Hl Hf
        | answer w1 vpc_name E region ec2 r1 r2 Ho Ht Ho2].
  - rewrite Ho in Hfin. discriminate Hfin.
  - contradiction.
  - destruct (provision_run env ec2 region vpc_name (world r1))
      as [(_ & _ & ids & body & Hb & Hc & Hp & Hr) | ((e & He) & _)]; subst r2.
    + exists answer, w1, vpc_name, ids, body.
      split; [exact E |]. split; [exact Ho |].
      split; [| split; [exact Hc | split; [exact Hp | exact Hr]]].
      rewrite Ht, Hb. cbn [app]. rewrite app_assoc. reflexivity.
    + rewrite Ho2, He in Hfin. discriminate Hfin.
Qed.

(** A run that does not finish prints nothing. *)
Lemma script_printed {W} (env : Env W) fuel w :
  let r := run env (script fuel) w in
  outcome r <> Finished tt -> printed (trace r) = [].
Proof.
  intros r Hnot. subst r.
  destruct (script_anatomy env fuel w)
    as [e w1 E Ht Ho | answer w1 E ec2 r1 Hn Ht Hs Hl Hf
        | answer w1 vpc_name E region ec2 r1 r2 Ho Ht Ho2].
  - rewrite Ht. reflexivity.
  - rewrite Ht. destruct (choose_name_trace env ec2 fuel w1) as (Hp & _ & _).
    change (printed (trace r1) = []).
    apply (probes_printed ec2). exact Hp.
  - rewrite Ht. destruct (choose_name_trace env ec2 fuel w1) as (Hp & _ & _).
    change (printed (trace r1 ++ trace r2) = []).
    rewrite printed_app, (probes_printed ec2) by exact Hp.
    destruct (provision_run env ec2 region vpc_name (world r1))
      as [(Hfin & _) | (_ & _ & Hnone)]; subst r2.
    + rewrite Ho2, Hfin in Hnot. contradiction Hnot. reflexivity.
    + exact Hnone.
Qed.

(** The events of a run that are neither the read nor part of the name probe
    are those of [provision]. *)
Lemma script_after_name {W} (env : Env W) fuel w answer w1 vpc_name :
  read_line env w = (inr answer, w1) ->
  let region := py_or answer default_region in
  let ec2 := boto3_client "ec2" region in
  let r1 := run env (choose_name ec2 fuel) w1 in
  outcome r1 = Finished vpc_name ->
  trace (run env (script fuel) w)
  = Read region_prompt (inr answer) :: trace r1
      ++ trace (run env (provision ec2 region vpc_name) (world r1)) /\
  Forall (is_probe ec2) (trace r1).
Proof.
  intros E region ec2 r1 Ho. split; [| apply choose_name_trace].
  rewrite run_script, E. cbv zeta. fold region ec2 r1.
  unfold and_then. rewrite Ho. reflexivity.
Qed.

Lemma plan_after_name body vpc_name ids rest :
  forallb is_call body = true ->
  calls body = plan vpc_name ids ->
  after_name_chosen (body ++ rest) = body ++ rest.
Proof.
  intros Hc Hp. destruct body as [| ev body]; [discriminate Hp |].
  destruct ev as [p res | cl c res | line]; try discriminate Hc.
  inversion Hp; subst c. reflexivity.
Qed.


Lemma probe_event ec2 t ev :
  Forall (is_probe ec2) t -> In ev t ->
  exists name result,
    ev = Called ec2 (describe_vpcs [tag_Name_filter name]) result.
Proof. intros H Hin. rewrite Forall_forall in H. exact (H ev Hin). Qed.

(** An event that is neither the read nor a [describe_vpcs] belongs to the
    run of [provision] that follows the choice of a name. *)
Lemma script_event {W} (env : Env W) fuel w ev :
  In ev (trace (run env (script fuel) w)) ->
  is_read ev = false ->
  (forall cl fs result, ev <> Called cl (describe_vpcs fs) result) ->
  exists answer w1 vpc_name,
    read_line env w = (inr answer, w1) /\
    let region := py_or answer default_region in
    let ec2 := boto3_client "ec2" region in
    let r1 := run env (choose_name ec2 fuel) w1 in
    let t2 := trace (run env (provision ec2 region vpc_name) (world r1)) in
    outcome r1 = Finished vpc_name /\
    Forall (is_probe ec2) (trace r1) /\
    trace (run env (script fuel) w)
    = Read region_prompt (inr answer) :: trace r1 ++ t2 /\
    In ev t2.
Proof.
  intros Hin Hread Hprobe.
  destruct (script_anatomy env fuel w)
    as [e w1 E Ht Ho | answer w1 E ec2 r1 Hn Ht Hs Hl Hf
        | answer w1 vpc_name E region ec2 r1 r2 Ho Ht Ho2];
    rewrite Ht in Hin.
  - destruct Hin as [<- | []]. discriminate Hread.
  - destruct Hin as [<- | Hin]; [discriminate Hread |].
    destruct (probe_event ec2 _ ev (proj1 (choose_name_trace env ec2 fuel w1)) Hin)
      as (name & result & ->).
    contradiction (Hprobe ec2 [tag_Name_filter name] result). reflexivity.
  - exists answer, w1, vpc_name.
    pose proof (proj1 (choose_name_trace env ec2 fuel w1)) as Hp.
    split; [exact E |]. split; [exact Ho |]. split; [exact Hp |].
    split; [exact Ht |].
    destruct Hin as [<- | Hin]; [discriminate Hread |].
    apply in_app_or in Hin. destruct Hin as [Hin | Hin]; [| exact Hin].
    destruct (probe_event ec2 _ ev Hp Hin) as (name & result & ->).
    contradiction (Hprobe ec2 [tag_Name_filter name] result). reflexivity.
Qed.

Lemma script_ingress_count {W} (env : Env W) fuel w :
  List.length (filter is_ingress (calls (trace (run env (script fuel) w)))) <= 1.
Proof.
  destruct (script_anatomy env fuel w)
    as [e w1 E Ht Ho | answer w1 E ec2 r1 Hn Ht Hs Hl Hf
        | answer w1 vpc_name E region ec2 r1 r2 Ho Ht Ho2];
    rewrite Ht.
  - cbn. lia.
  - change (List.length (filter is_ingress (calls (trace r1))) <= 1).
    rewrite (probes_no_ingress ec2) by apply choose_name_trace. cbn. lia.
  - change (List.length (filter is_ingress (calls (trace r1 ++ trace r2))) <= 1).
    rewrite calls_app, filter_app, (probes_no_ingress ec2) by apply choose_name_trace.
    apply provision_ingress.
Qed.

(** ** The name search always ends on a finite account *)

Lemma str_inj i j : str i = str j -> i = j.
Proof.
  unfold str. intros H.
  apply DecimalNat.Unsigned.to_uint_inj.
  apply (f_equal NilEmpty.uint_of_string) in H.
  rewrite !NilEmpty.usu in H. inversion H. reflexivity.
Qed.

Lemma suffixed_inj i j : suffixed i = suffixed j -> i = j.
Proof.
  unfold suffixed, base_name. cbn [append]. intros H.
  inversion H. apply str_inj. assumption.
Qed.

Lemma tagged_taken vpcs name :
  tagged vpcs name <> [] -> In name (names_taken vpcs).
Proof.
  unfold tagged, names_taken. intros H.
  destruct (filter (has_Name name) vpcs) as [| v l] eqn:E; [contradiction H; reflexivity |].
  assert (Hv : In v (filter (has_Name name) vpcs)) by (rewrite E; left; reflexivity).
  apply filter_In in Hv. destruct Hv as [Hin Hn].
  unfold has_Name in Hn. apply existsb_exists in Hn.
  destruct Hn as (t & Ht & Hkv). apply andb_true_iff in Hkv.
  destruct Hkv as [_ Hval]. apply String.eqb_eq in Hval.
  apply in_flat_map. exists v. split; [exact Hin |].
  rewrite <- Hval. apply in_map. exact Ht.
Qed.

Lemma used_dec vpcs name :
  {tagged vpcs name <> []} + {~ tagged vpcs name <> []}.
Proof.
  destruct (tagged vpcs name).
  - right. intros H. apply H. reflexivity.
  - left. discriminate.
Qed.

(** Among the first [n + 1] suffixes, where [n] bounds the Name tags in use,
    one is unused. *)
Lemma unused_suffix_exists vpcs :
  exists i, 1 <= i <= S (List.length (names_taken vpcs)) /\
            tagged vpcs (suffixed i) = [].
Proof.
  set (n := List.length (names_taken vpcs)).
  destruct (Forall_Exists_dec (fun i => tagged vpcs (suffixed i) <> [])
                              (fun i => used_dec vpcs (suffixed i))
                              (seq 1 (S n))) as [Hall | Hex].
  - exfalso.
    assert (Hincl : incl (map suffixed (seq 1 (S n))) (names_taken vpcs)).
    { intros name Hin. apply in_map_iff in Hin. destruct Hin as (i & <- & Hi).
      apply tagged_taken. rewrite Forall_forall in Hall. apply Hall. exact Hi. }
    apply NoDup_incl_length in Hincl.
    + rewrite length_map, length_seq in Hincl. fold n in Hincl. lia.
    + apply Injective_map_NoDup; [| apply seq_NoDup].
      intros i j. apply suffixed_inj.
  - apply Exists_exists in Hex. destruct Hex as (i & Hi & Hfree).
    apply in_seq in Hi. exists i. split; [lia |].
    destruct (tagged vpcs (suffixed i)); [reflexivity |].
    contradiction Hfree. discriminate.
Qed.

(** X1.  Against an account that holds finitely many VPCs, the loop always
    ends, within one more iteration than there are tags in use. *)
Corollary name_loop_always_ends {W} (env : Env W) ec2 w vpcs :
  (forall name,
      api env ec2 (describe_vpcs [tag_Name_filter name]) w
      = (inr (VpcsResponse (tagged vpcs name)), w)) ->
  exists k,
    first_unused vpcs k /\
    k <= S (List.length (names_taken vpcs)) /\
    forall fuel,
      k <= fuel ->
      outcome (run env (name_loop ec2 fuel 1) w) = Finished (suffixed k).
Proof.
  intros Hd.
  destruct (unused_suffix_exists vpcs) as (i & Hi & Hfree).
  destruct (first_unused_exists vpcs) as (k & Hk).
  { exists i. split; [lia | exact Hfree]. }
  exists k. split; [exact Hk |]. split.
  - destruct Hk as (_ & _ & Hused).
    destruct (le_lt_dec k i) as [Hle | Hlt]; [lia |].
    exfalso. apply (Hused i); [lia | exact Hfree].
  - intros fuel Hfuel. destruct Hk as (H1 & Hkfree & Hused).
    destruct k as [| k]; [lia |].
    rewrite (name_loop_run env ec2 w vpcs Hd k fuel 1); [reflexivity | | exact Hkfree | lia].
    intros j Hj. apply Hused. lia.
Qed.

(** X1 on the small account with two names taken. *)
Lemma name_loop_always_ends_witness :
  exists k,
    first_unused (vpcs crowded) k /\
    k <= S (List.length (names_taken (vpcs crowded))) /\
    forall fuel,
      k <= fuel ->
      outcome (run account (name_loop (boto3_client "ec2" "us-east-1") fuel 1) crowded)
      = Finished (suffixed k).
Proof.
  apply (name_loop_always_ends account (boto3_client "ec2" "us-east-1") crowded
                               (vpcs crowded)
                               (fun name => account_describe _ name crowded)).
Defined.

(** ** Two runs in a row *)

(** Two runs on the small account: the first takes ['vpc_image'], the second,
    finding it taken, ['vpc_image_1']. *)
Example second_run_takes_the_next_name :
  let first := run account (script 3) {| typed := [""; ""]; vpcs := []; serial := 0 |} in
  let second := run account (script 3) (world first) in
  hd "" (printed (trace first))
  = "VPC 'vpc_image' created with ID 'vpc-0' in region 'eu-west-1'." /\
  hd "" (printed (trace second))
  = "VPC 'vpc_image_1' created with ID 'vpc-4' in region 'eu-west-1'.".
Proof. split; reflexivity. Qed.

(** * The claims *)

(** C1.  Given the VPCs of the account and their Name tags, the name the
    script chooses is ['vpc_image'] when no VPC is tagged ['vpc_image'];
    otherwise it is ['vpc_image_'] followed by the smallest integer [i >= 1]
    such that no VPC is tagged with that suffixed name. *)
Theorem chosen_name_is_first_unused :
  forall {W} (env : Env W) (ec2 : Client) (w : W) (vpcs : list Vpc),
    (forall name,
        api env ec2 (describe_vpcs [tag_Name_filter name]) w
        = (inr (VpcsResponse (tagged vpcs name)), w)) ->
    (tagged vpcs "vpc_image" = [] ->
     forall fuel,
       outcome (run env (choose_name ec2 fuel) w) = Finished "vpc_image") /\
    (tagged vpcs "vpc_image" <> [] ->
     forall i fuel,
       first_unused vpcs i -> i <= fuel ->
       outcome (run env (choose_name ec2 fuel) w)
       = Finished ("vpc_image_" ++ str i)%string).
Proof.
  intros W env ec2 w vpcs Hd. split.
  - intros Hbase fuel.
    rewrite (choose_name_unused env ec2 w vpcs Hd fuel Hbase). reflexivity.
  - intros Hbase i fuel Hi Hfuel.
    rewrite (choose_name_used env ec2 w vpcs Hd fuel i Hbase Hi Hfuel).
    reflexivity.
Qed.

(** C1 on the small account: nothing is taken, then two names are. *)
Lemma chosen_name_is_first_unused_witness :
  outcome (run account (choose_name (boto3_client "ec2" "eu-west-1") 0) vacant)
  = Finished "vpc_image" /\
  outcome (run account (choose_name (boto3_client "ec2" "us-east-1") 5) crowded)
  = Finished "vpc_image_2".
Proof.
  split.
  - apply (proj1 (chosen_name_is_first_unused
                    account (boto3_client "ec2" "eu-west-1") vacant (vpcs vacant)
                    (fun name => account_describe _ name vacant))).
    reflexivity.
  - apply (proj2 (chosen_name_is_first_unused
                    account (boto3_client "ec2" "us-east-1") crowded (vpcs crowded)
                    (fun name => account_describe _ name crowded))
                 ltac:(discriminate) 2 5).
    + repeat split; [lia | ].
      intros j Hj. assert (j = 1) as -> by lia. discriminate.
    + lia.
Defined.



(** C3 as first stated fails: on a complete run the script makes its eight
    create/configure calls, but the one after [create_internet_gateway] is
    [attach_internet_gateway], not a tagging call. *)
Lemma not_every_call_is_tagged_at_once :
  let r := run canned (script 0) recorded in
  let cs := calls (after_name_chosen (trace r)) in
  forallb call_succeeded (trace r) = true /\
  outcome r = Finished tt /\
  List.length (filter is_mutation cs) = 8 /\
  nth_error cs 2 = Some create_internet_gateway /\
  nth_error cs 3 = Some (attach_internet_gateway "igw-1" "vpc-0") /\
  tagged_within 1 cs = false.
Proof. repeat split. Qed.

(** C3, as amended.  On a run in which nothing raises, the script issues,
    after the name is chosen, exactly the fourteen calls of [plan]: eight
    create/configure calls, one [describe_route_tables] and five tagging
    calls.  Every create/configure call is followed by a tagging call, either
    immediately ([create_vpc], [attach_internet_gateway], [create_subnet],
    [associate_route_table], [authorize_security_group_ingress]) or after one
    more create/configure call ([create_internet_gateway], [create_route],
    [create_security_group]). *)
Theorem eight_calls_five_tags :
  forall {W} (env : Env W) (fuel : nat) (w : W),
    let r := run env (script fuel) w in
    forallb went_well (trace r) = true ->
    outcome r <> Looping ->
    exists vpc_name ids,
      calls (after_name_chosen (trace r)) = plan vpc_name ids /\
      map kind (plan vpc_name ids)
      = [Mutation; Tagging;
         Mutation; Mutation; Tagging;
         Mutation; Tagging;
         Query; Mutation; Mutation; Tagging;
         Mutation; Mutation; Tagging] /\
      List.length (filter is_mutation (plan vpc_name ids)) = 8 /\
      List.length (filter is_query (plan vpc_name ids)) = 1 /\
      List.length (filter is_tagging (plan vpc_name ids)) = 5 /\
      tagged_within 2 (plan vpc_name ids) = true.
Proof.
  intros W env fuel w r Hwell Hloop.
  assert (Hfin : outcome r = Finished tt).
  { pose proof (script_smooth env fuel w) as Hs. cbv zeta in Hs. fold r in Hs.
    rewrite Hwell in Hs. destruct (outcome r) as [[] | e |];
      [reflexivity | discriminate Hs | contradiction Hloop; reflexivity]. }
  destruct (script_finished env fuel w Hfin)
    as (answer & w1 & vpc_name & ids & body & E & Ho & Ht & Hc & Hp & _).
  exists vpc_name, ids. repeat split.
  fold r in Ht. rewrite Ht. cbn [app after_name_chosen].
  rewrite <- app_assoc.
  rewrite (probes_skipped (boto3_client "ec2" (py_or answer default_region)))
    by apply choose_name_trace.
  rewrite (plan_after_name body vpc_name ids) by assumption.
  rewrite calls_app, calls_Printed, app_nil_r. exact Hp.
Qed.

(** C3, as amended, on the recorded run. *)
Lemma eight_calls_five_tags_witness :
  exists vpc_name ids,
    calls (after_name_chosen (trace (run canned (script 0) recorded)))
    = plan vpc_name ids /\
    map kind (plan vpc_name ids)
    = [Mutation; Tagging;
       Mutation; Mutation; Tagging;
       Mutation; Tagging;
       Query; Mutation; Mutation; Tagging;
       Mutation; Mutation; Tagging] /\
    List.length (filter is_mutation (plan vpc_name ids)) = 8 /\
    List.length (filter is_query (plan vpc_name ids)) = 1 /\
    List.length (filter is_tagging (plan vpc_name ids)) = 5 /\
    tagged_within 2 (plan vpc_name ids) = true.
Proof.
  apply (eight_calls_five_tags canned 0 recorded).
  - reflexivity.
  - discriminate.
Defined.



(** C5 as first stated fails: every API call of this run succeeds, yet the
    list of route tables is empty, [[0]] raises and nothing is printed. *)
Lemma no_summary_without_a_route_table :
  let r := run canned (script 0) no_route_table in
  forallb call_succeeded (trace r) = true /\
  List.length (calls (trace r)) = 9 /\
  outcome r = Uncaught IndexError /\
  printed (trace r) = [] /\
  List.length (printed (trace r)) <> 5.
Proof. repeat split. discriminate. Qed.

(** C5, as amended.  On every run, whatever [print] writes comes after the
    last API call, and it is either nothing or the five summary lines; it is
    the five lines on a run in which the region is read, the name search
    ends, and every call returns a response with the fields the script reads
    (for [describe_route_tables], at least one route table).  The prompt of
    [input] is shown before any call; it belongs to the [Read] event. *)
Theorem summary_is_printed_last :
  forall {W} (env : Env W) (fuel : nat) (w : W),
    let r := run env (script fuel) w in
    exists before lines,
      trace r = before ++ map Printed lines /\
      printed before = [] /\
      (lines = [] \/ (outcome r = Finished tt /\ List.length lines = 5)) /\
      (forallb went_well (trace r) = true -> outcome r <> Looping ->
       List.length lines = 5).
Proof.
  intros W env fuel w r.
  pose proof (script_smooth env fuel w) as Hs. cbv zeta in Hs. fold r in Hs.
  destruct (outcome r) as [[] | e |] eqn:O.
  - destruct (script_finished env fuel w O)
      as (answer & w1 & vpc_name & ids & body & E & Ho & Ht & Hc & Hp & _).
    fold r in Ht. rewrite Ht.
    eexists _, _. split; [reflexivity |]. split.
    + change (printed (trace (run env (choose_name (boto3_client "ec2" (py_or answer default_region)) fuel) w1) ++ body) = []).
      rewrite printed_app, (printed_calls body Hc), app_nil_r.
      apply (probes_printed (boto3_client "ec2" (py_or answer default_region))).
      apply choose_name_trace.
    + split; [right; split; reflexivity | reflexivity].
  - exists (trace r), []. rewrite app_nil_r. split; [reflexivity |]. split.
    + apply script_printed. fold r. rewrite O. discriminate.
    + split; [left; reflexivity |]. intros Hw. rewrite Hw in Hs. discriminate Hs.
  - exists (trace r), []. rewrite app_nil_r. split; [reflexivity |]. split.
    + apply script_printed. fold r. rewrite O. discriminate.
    + split; [left; reflexivity |]. intros _ Hl. contradiction Hl. reflexivity.
Qed.

(** C5, as amended, on the recorded run. *)
Lemma summary_is_printed_last_witness :
  exists before lines,
    trace (run canned (script 0) recorded) = before ++ map Printed lines /\
    printed before = [] /\
    List.length lines = 5.
Proof.
  destruct (summary_is_printed_last canned 0 recorded)
    as (before & lines & Ht & Hb & _ & H5).
  exists before, lines. split; [exact Ht |]. split; [exact Hb |].
  apply H5; [reflexivity | discriminate].
Defined.





(** C8.  If the line typed for the region is the empty string, the region of
    the EC2 client is ['eu-west-1']. *)
Theorem empty_input_means_default_region :
  forall {W} (env : Env W) (fuel : nat) (w w1 : W),
    read_line env w = (inr "", w1) ->
    forall ec2 c result,
      In (Called ec2 c result) (trace (run env (script fuel) w)) ->
      ec2 = boto3_client "ec2" "eu-west-1" /\ region_name ec2 = "eu-west-1".
Proof.
  intros W env fuel w w1 E ec2 c result H.
  destruct (script_after_read env fuel w "" w1 E) as (rest & Ht & _ & Hc).
  rewrite Ht in H. destruct H as [H | H]; [discriminate H |].
  rewrite Forall_forall in Hc. specialize (Hc _ H). cbn in Hc. subst ec2.
  split; reflexivity.
Qed.

(** C8 on the recorded run, where the line typed is empty. *)
Lemma empty_input_means_default_region_witness :
  hd (boto3_client "" "") (clients (trace (run canned (script 0) recorded)))
  = boto3_client "ec2" "eu-west-1" /\
  region_name
    (hd (boto3_client "" "") (clients (trace (run canned (script 0) recorded))))
  = "eu-west-1".
Proof.
  apply (empty_input_means_default_region
           canned 0 recorded
           {| stdin := []; replies := replies recorded |}
           eq_refl _
           (describe_vpcs [tag_Name_filter base_name])
           (inr (VpcsResponse []))).
  vm_compute. find_in.
Defined.

(** C9.  The script authorizes at most one ingress, and whenever it does,
    the rule is TCP from port 22 to port 22 for 0.0.0.0/0, on the security
    group that [create_security_group] returned for the VPC that
    [create_vpc] returned. *)
Theorem ssh_is_the_only_ingress :
  forall {W} (env : Env W) (fuel : nat) (w : W),
    let t := trace (run env (script fuel) w) in
    (forall cl gid perms result,
        In (Called cl (authorize_security_group_ingress gid perms) result) t ->
        perms = [ {| IpProtocol := "tcp"; FromPort := 22; ToPort := 22;
                     IpRanges := [ {| CidrIp := "0.0.0.0/0" |} ] |} ] /\
        exists cl1 cl2 vpc group_name,
          In (Called cl1 (create_vpc cidr_block tenancy) (inr (VpcResponse vpc))) t /\
          In (Called cl2 (create_security_group group_name "SSH access from anywhere" vpc)
                     (inr (GroupResponse gid))) t) /\
    List.length (filter is_ingress (calls t)) <= 1.
Proof.
  intros W env fuel w t. split; [| apply script_ingress_count].
  intros cl gid perms result Hin.
  destruct (script_event env fuel w _ Hin)
    as (answer & w1 & vpc_name & E & Ho & Hp & Ht & Hin2);
    [reflexivity | discriminate |].
  destruct (proj1 (provision_ingress env _ _ vpc_name _) cl gid perms result Hin2)
    as (Hperms & cl1 & cl2 & vpc & group_name & Hvpc & Hsg).
  split; [exact Hperms |].
  exists cl1, cl2, vpc, group_name. subst t. rewrite Ht.
  split; right; apply in_or_app; right; assumption.
Qed.

(** C9 on the recorded run. *)
Lemma ssh_is_the_only_ingress_witness :
  [ssh_from_anywhere]
  = [ {| IpProtocol := "tcp"; FromPort := 22; ToPort := 22;
         IpRanges := [ {| CidrIp := "0.0.0.0/0" |} ] |} ] /\
  exists cl1 cl2 vpc group_name,
    In (Called cl1 (create_vpc cidr_block tenancy) (inr (VpcResponse vpc)))
       (trace (run canned (script 0) recorded)) /\
    In (Called cl2 (create_security_group group_name "SSH access from anywhere" vpc)
               (inr (GroupResponse "sg-3")))
       (trace (run canned (script 0) recorded)).
Proof.
  apply (proj1 (ssh_is_the_only_ingress canned 0 recorded)
               (boto3_client "ec2" "eu-west-1") "sg-3" [ssh_from_anywhere]
               (inr OtherResponse)).
  vm_compute. find_in.
Defined.

(** C10.  The subnet is created with the CIDR block of the VPC,
    ['10.0.0.0/24'], in the VPC that [create_vpc] returned; and every Name
    tag the script sets is the chosen VPC name followed by one of [''],
    ['-igw'], ['-subnet'], ['-rt'], ['-sg'], each on its own resource when
    the run completes. *)
Theorem names_and_cidr_blocks :
  forall {W} (env : Env W) (fuel : nat) (w w1 : W) (answer vpc_name : string),
    read_line env w = (inr answer, w1) ->
    outcome (run env (choose_name (boto3_client "ec2" (py_or answer default_region)) fuel) w1)
    = Finished vpc_name ->
    let r := run env (script fuel) w in
    Forall (well_named vpc_name) (trace r) /\
    (forall cl v cidr result,
        In (Called cl (create_subnet v cidr) result) (trace r) ->
        cidr = "10.0.0.0/24" /\
        exists cl', In (Called cl' (create_vpc "10.0.0.0/24" "default")
                               (inr (VpcResponse v))) (trace r)) /\
    (outcome r = Finished tt ->
     exists ids, calls (after_name_chosen (trace r)) = plan vpc_name ids).
Proof.
  intros W env fuel w w1 answer vpc_name E Ho r.
  destruct (script_after_name env fuel w answer w1 vpc_name E Ho) as [Ht Hp].
  subst r. split; [| split].
  - rewrite Ht. constructor; [exact I |].
    apply Forall_app. split; [apply (probes_named _ _ _ Hp) | apply provision_names].
  - intros cl v cidr result Hin.
    rewrite Ht in Hin. destruct Hin as [Hin | Hin]; [discriminate Hin |].
    apply in_app_or in Hin. destruct Hin as [Hin | Hin].
    + destruct (probe_event _ _ _ Hp Hin) as (name & res & Hev). discriminate Hev.
    + destruct (provision_subnet env _ _ vpc_name _ cl v cidr result Hin)
        as (Hc & cl' & Hvpc).
      split; [exact Hc |]. exists cl'. rewrite Ht.
      right. apply in_or_app. right. exact Hvpc.
  - intros Hfin.
    destruct (script_finished env fuel w Hfin)
      as (answer' & w1' & vpc_name' & ids & body & E' & Ho' & Ht' & Hc & Hplan & _).
    rewrite E in E'. inversion E'; subst answer' w1'.
    rewrite Ho in Ho'. inversion Ho'; subst vpc_name'.
    exists ids. rewrite Ht'. cbn [app after_name_chosen].
    rewrite <- app_assoc.
    rewrite (probes_skipped _ _ _ Hp).
    rewrite (plan_after_name body vpc_name ids) by assumption.
    rewrite calls_app, calls_Printed, app_nil_r. exact Hplan.
Qed.

(** C10 on the recorded run. *)
Lemma names_and_cidr_blocks_witness :
  let r := run canned (script 0) recorded in
  Forall (well_named "vpc_image") (trace r) /\
  (forall cl v cidr result,
      In (Called cl (create_subnet v cidr) result) (trace r) ->
      cidr = "10.0.0.0/24" /\
      exists cl', In (Called cl' (create_vpc "10.0.0.0/24" "default")
                             (inr (VpcResponse v))) (trace r)) /\
  (outcome r = Finished tt ->
   exists ids, calls (after_name_chosen (trace r)) = plan "vpc_image" ids).
Proof.
  apply (names_and_cidr_blocks
           canned 0 recorded
           {| stdin := []; replies := replies recorded |}
           "" "vpc_image").
  - reflexivity.
  - reflexivity.
Defined.

(** * Further properties of the script *)

(** ** What [provision] does on every run, read back from the trace *)

Lemma provision_follows_plan {W} (env : Env W) ec2 region vpc_name w :
  let t := trace (run env (provision ec2 region vpc_name) w) in
  exists rest, plan vpc_name (ids_of t) = calls t ++ rest.
Proof.
  walk env; eexists; reflexivity.
Qed.

Lemma provision_summary {W} (env : Env W) ec2 region vpc_name w :
  let r := run env (provision ec2 region vpc_name) w in
  outcome r = Finished tt ->
  printed (trace r) = summary region vpc_name (ids_of (trace r)).
Proof.
  walk env; intros H; try discriminate H; reflexivity.
Qed.


Lemma provision_route {W} (env : Env W) ec2 region vpc_name w :
  let t := trace (run env (provision ec2 region vpc_name) w) in
  forall cl rt dest gw result,
    In (Called cl (create_route rt dest gw) result) t ->
    dest = "0.0.0.0/0" /\
    exists cl1 cl2 cl3 cl4 vpc attached rt0 others,
      In (Called cl1 (create_vpc cidr_block tenancy) (inr (VpcResponse vpc))) t /\
      In (Called cl2 create_internet_gateway (inr (InternetGatewayResponse gw))) t /\
      In (Called cl3 (attach_internet_gateway gw vpc) (inr attached)) t /\
      In (Called cl4 (describe_route_tables [ {| Name := "vpc-id"; Values := [vpc] |} ])
                 (inr (RouteTablesResponse (rt0 :: others)))) t /\
      rt = RouteTableId rt0.
Proof.
  walk env; intros cl rt dest gw result H; cbn [In] in H;
    repeat (destruct H as [H | H]; [try discriminate H |]);
    try contradiction;
    inversion H; subst;
    (split; [reflexivity |]);
    eexists _, _, _, _, _, _, _, _;
    (split; [find_in |]); (split; [find_in |]); (split; [find_in |]);
    (split; [find_in | reflexivity]).
Qed.

Lemma provision_no_route_table {W} (env : Env W) ec2 region vpc_name w :
  let r := run env (provision ec2 region vpc_name) w in
  forall cl fs,
    In (Called cl (describe_route_tables fs) (inr (RouteTablesResponse []))) (trace r) ->
    outcome r = Uncaught IndexError /\
    calls (trace r) = firstn 8 (plan vpc_name (ids_of (trace r))) /\
    printed (trace r) = [].
Proof.
  walk env; intros cl fs H; cbn [In] in H;
    repeat (destruct H as [H | H]; [try discriminate H |]);
    try contradiction;
    repeat split.
Qed.

(** ** How a run ends in an exception *)






(** The outcome of the script, from the outcomes of its phases. *)
Lemma script_outcome {W} (env : Env W) fuel w answer w1 :
  read_line env w = (inr answer, w1) ->
  let region := py_or answer default_region in
  let ec2 := boto3_client "ec2" region in
  let r1 := run env (choose_name ec2 fuel) w1 in
  let r := run env (script fuel) w in
  match outcome r1 with
  | Finished vpc_name =>
      let r2 := run env (provision ec2 region vpc_name) (world r1) in
      trace r = Read region_prompt (inr answer) :: trace r1 ++ trace r2 /\
      outcome r = outcome r2
  | Uncaught e =>
      trace r = Read region_prompt (inr answer) :: trace r1 /\
      outcome r = Uncaught e
  | Looping =>
      trace r = Read region_prompt (inr answer) :: trace r1 /\
      outcome r = Looping
  end.
Proof.
  intros E region ec2 r1 r. subst r. rewrite run_script, E. cbv zeta.
  fold region ec2 r1. unfold and_then.
  destruct (outcome r1); split; reflexivity.
Qed.


(** ** The script as a whole, continued *)

Lemma probes_skipped_all ec2 t :
  Forall (is_probe ec2) t -> after_name_chosen t = [].
Proof.
  intros H. rewrite <- (app_nil_r t). rewrite (probes_skipped ec2 t [] H). reflexivity.
Qed.

Lemma script_after_name_chosen {W} (env : Env W) fuel w answer w1 vpc_name :
  read_line env w = (inr answer, w1) ->
  let region := py_or answer default_region in
  let ec2 := boto3_client "ec2" region in
  let r1 := run env (choose_name ec2 fuel) w1 in
  outcome r1 = Finished vpc_name ->
  after_name_chosen (trace (run env (script fuel) w))
  = trace (run env (provision ec2 region vpc_name) (world r1)) /\
  printed (trace (run env (script fuel) w))
  = printed (trace (run env (provision ec2 region vpc_name) (world r1))) /\
  outcome (run env (script fuel) w)
  = outcome (run env (provision ec2 region vpc_name) (world r1)).
Proof.
  intros E region ec2 r1 Ho.
  pose proof (script_outcome env fuel w answer w1 E) as Hs. cbv zeta in Hs.
  fold region ec2 r1 in Hs. rewrite Ho in Hs. destruct Hs as [Ht Ho2].
  pose proof (proj1 (choose_name_trace env ec2 fuel w1)) as Hp. fold r1 in Hp.
  rewrite Ht. repeat split.
  - cbn [after_name_chosen]. rewrite (probes_skipped ec2 _ _ Hp).
    apply provision_after_name.
  - change (printed (trace r1 ++ trace (run env (provision ec2 region vpc_name) (world r1)))
            = printed (trace (run env (provision ec2 region vpc_name) (world r1)))).
    rewrite printed_app, (probes_printed ec2 _ Hp). reflexivity.
  - exact Ho2.
Qed.

(** X5.  On every run, the calls issued after the name probe are an initial
    part of the fourteen calls of [plan], in order, with the chosen name and
    with the identifiers the API returned earlier in the run: a failure cuts
    the sequence short, and never skips, repeats or reorders a call.  No such
    call is issued unless the probe settled on a name. *)
Theorem calls_are_a_prefix_of_the_plan :
  forall {W} (env : Env W) (fuel : nat) (w : W),
    let t := after_name_chosen (trace (run env (script fuel) w)) in
    exists vpc_name rest,
      plan vpc_name (ids_of t) = calls t ++ rest /\
      (t = [] \/
       exists answer w1,
         read_line env w = (inr answer, w1) /\
         outcome (run env (choose_name (boto3_client "ec2" (py_or answer default_region)) fuel) w1)
         = Finished vpc_name).
Proof.
  intros W env fuel w t. subst t.
  destruct (read_line env w) as [[e0 | answer] w1] eqn:E.
  - rewrite run_script, E. exists base_name. eexists. split; [reflexivity |].
    left. reflexivity.
  - pose proof (script_outcome env fuel w answer w1 E) as Hs. cbv zeta in Hs.
    pose proof (proj1 (choose_name_trace env (boto3_client "ec2" (py_or answer default_region)) fuel w1))
      as Hp.
    destruct (outcome (run env (choose_name _ fuel) w1)) as [vpc_name | e1 |] eqn:O.
    + destruct (script_after_name_chosen env fuel w answer w1 vpc_name E O) as (Ha & _).
      rewrite Ha. exists vpc_name.
      destruct (provision_follows_plan env (boto3_client "ec2" (py_or answer default_region))
                  (py_or answer default_region) vpc_name
                  (world (run env (choose_name (boto3_client "ec2" (py_or answer default_region)) fuel) w1)))
        as (rest & Hrest).
      exists rest. split; [exact Hrest |]. right. exists answer, w1. split; [reflexivity | exact O].
    + destruct Hs as [Ht _]. rewrite Ht. cbn [after_name_chosen].
      rewrite (probes_skipped_all _ _ Hp).
      exists base_name. eexists. split; [reflexivity |]. left. reflexivity.
    + destruct Hs as [Ht _]. rewrite Ht. cbn [after_name_chosen].
      rewrite (probes_skipped_all _ _ Hp).
      exists base_name. eexists. split; [reflexivity |]. left. reflexivity.
Qed.

(** X7.  On a run that finishes, the five lines printed are those of
    [summary]: they report the chosen name, the region used for the client,
    and the identifiers the API returned during the run. *)
Theorem summary_reports_the_run :
  forall {W} (env : Env W) (fuel : nat) (w : W),
    let r := run env (script fuel) w in
    outcome r = Finished tt ->
    exists answer w1 vpc_name,
      read_line env w = (inr answer, w1) /\
      outcome (run env (choose_name (boto3_client "ec2" (py_or answer default_region)) fuel) w1)
      = Finished vpc_name /\
      printed (trace r)
      = summary (py_or answer default_region) vpc_name
                (ids_of (after_name_chosen (trace r))).
Proof.
  intros W env fuel w r Hfin.
  destruct (script_finished env fuel w Hfin)
    as (answer & w1 & vpc_name & _ & _ & E & Ho & _).
  exists answer, w1, vpc_name. split; [exact E |]. split; [exact Ho |].
  destruct (script_after_name_chosen env fuel w answer w1 vpc_name E Ho) as (Ha & Hp & Ho2).
  subst r. rewrite Ha, Hp. apply provision_summary. rewrite <- Ho2. exact Hfin.
Qed.

Lemma in_script_trace {W} (env : Env W) fuel w answer t1 t2 ev :
  trace (run env (script fuel) w) = Read region_prompt (inr answer) :: t1 ++ t2 ->
  In ev t2 -> In ev (trace (run env (script fuel) w)).
Proof. intros -> H. right. apply in_or_app. right. exact H. Qed.

(** X6.  Whenever the script creates a route, it is the route for 0.0.0.0/0
    through the internet gateway that [create_internet_gateway] returned and
    that has been attached to the new VPC, in the first route table that
    [describe_route_tables] listed for that VPC; further tables in the list
    are ignored. *)
Theorem default_route_goes_through_the_new_gateway :
  forall {W} (env : Env W) (fuel : nat) (w : W) cl rt dest gw result,
    let t := trace (run env (script fuel) w) in
    In (Called cl (create_route rt dest gw) result) t ->
    dest = "0.0.0.0/0" /\
    exists cl1 cl2 cl3 cl4 vpc attached rt0 others,
      In (Called cl1 (create_vpc cidr_block tenancy) (inr (VpcResponse vpc))) t /\
      In (Called cl2 create_internet_gateway (inr (InternetGatewayResponse gw))) t /\
      In (Called cl3 (attach_internet_gateway gw vpc) (inr attached)) t /\
      In (Called cl4 (describe_route_tables [ {| Name := "vpc-id"; Values := [vpc] |} ])
                 (inr (RouteTablesResponse (rt0 :: others)))) t /\
      rt = RouteTableId rt0.
Proof.
  intros W env fuel w cl rt dest gw result t Hin.
  destruct (script_event env fuel w _ Hin)
    as (answer & w1 & vpc_name & E & Ho & Hp & Ht & Hin2);
    [reflexivity | discriminate |].
  destruct (provision_route env _ _ vpc_name _ cl rt dest gw result Hin2)
    as (Hd & cl1 & cl2 & cl3 & cl4 & vpc & attached & rt0 & others & H1 & H2 & H3 & H4 & H5).
  split; [exact Hd |].
  exists cl1, cl2, cl3, cl4, vpc, attached, rt0, others. subst t.
  repeat split; try (eapply in_script_trace; [exact Ht | assumption]).
  exact H5.
Qed.

(** X9.  If [describe_route_tables] returns an empty list, the script ends
    with [IndexError] at line 51 and prints nothing; by then it has created
    and tagged the VPC, the gateway and the subnet (the first eight calls of
    [plan]), and it issues no call for a route or a security group. *)
Theorem no_route_table_strands_the_run :
  forall {W} (env : Env W) (fuel : nat) (w : W) cl fs,
    let r := run env (script fuel) w in
    let t := after_name_chosen (trace r) in
    In (Called cl (describe_route_tables fs) (inr (RouteTablesResponse []))) (trace r) ->
    outcome r = Uncaught IndexError /\
    printed (trace r) = [] /\
    exists vpc_name,
      calls t = firstn 8 (plan vpc_name (ids_of t)) /\
      map kind (calls t)
      = [Mutation; Tagging; Mutation; Mutation; Tagging; Mutation; Tagging; Query].
Proof.
  intros W env fuel w cl fs r t Hin.
  destruct (script_event env fuel w _ Hin)
    as (answer & w1 & vpc_name & E & Ho & Hp & Ht & Hin2);
    [reflexivity | discriminate |].
  destruct (script_after_name_chosen env fuel w answer w1 vpc_name E Ho) as (Ha & Hpr & Ho2).
  destruct (provision_no_route_table env _ _ vpc_name _ cl fs Hin2) as (Hout & Hcalls & Hnone).
  subst r t. rewrite Ha, Hpr, Ho2. split; [exact Hout |]. split; [exact Hnone |].
  exists vpc_name. split; [exact Hcalls |]. rewrite Hcalls. reflexivity.
Qed.

Lemma name_loop_finished {W} (env : Env W) ec2 fuel :
  forall i w name,
    let r := run env (name_loop ec2 fuel i) w in
    outcome r = Finished name ->
    exists j,
      name = suffixed (i + j) /\
      calls (trace r) = map probe_call (map suffixed (seq i (S j))) /\
      last (trace r) (Printed "") = Called ec2 (probe_call name) (inr (VpcsResponse [])) /\
      Forall (found_taken ec2) (removelast (trace r)).
Proof.
  induction fuel as [| fuel IH]; intros i w name; cbn [name_loop call bind run].
  - discriminate.
  - destruct (api env ec2 _ w) as [[e' | r] w']; [discriminate |].
    rewrite trace_after, outcome_after.
    destruct r as [l | | | | | |]; cbn [get_Vpcs bind run trace outcome fst snd];
      try discriminate.
    destruct l as [| v l]; cbn [truthy negb run trace outcome fst snd].
    + intros H. inversion H; subst. exists 0. rewrite Nat.add_0_r.
      repeat split. constructor.
    + intros H. destruct (IH (i + 1) w' name H) as (j & Hn & Hc & Hl & Hf).
      exists (S j). replace (i + S j) with (i + 1 + j) by lia.
      split; [exact Hn |].
      destruct (trace (run env (name_loop ec2 fuel (i + 1)) w')) as [| ev t] eqn:Et;
        [discriminate Hl |].
      repeat split.
      * change (calls (Called ec2 (describe_vpcs [tag_Name_filter (suffixed i)])
                              (inr (VpcsResponse (v :: l))) :: ev :: t))
          with (probe_call (suffixed i) :: calls (ev :: t)).
        rewrite Hc. replace (i + 1) with (S i) by lia. reflexivity.
      * exact Hl.
      * change (removelast (Called ec2 (describe_vpcs [tag_Name_filter (suffixed i)])
                                   (inr (VpcsResponse (v :: l))) :: ev :: t))
          with (Called ec2 (describe_vpcs [tag_Name_filter (suffixed i)])
                       (inr (VpcsResponse (v :: l))) :: removelast (ev :: t)).
        constructor; [eexists _, _, _; reflexivity | exact Hf].
Qed.

(** X3.  Against any environment, when the name probe settles on a name,
    the probes were for ['vpc_image'], ['vpc_image_1'], ... in order, the
    last one was for the chosen name and returned no VPC, and every earlier
    one returned at least one VPC. *)
Theorem probe_ends_on_a_name_reported_unused :
  forall {W} (env : Env W) (ec2 : Client) (fuel : nat) (w : W) (name : string),
    let r := run env (choose_name ec2 fuel) w in
    outcome r = Finished name ->
    exists k,
      name = match k with O => base_name | S _ => suffixed k end /\
      calls (trace r) = map probe_call (names_tried k) /\
      last (trace r) (Printed "") = Called ec2 (probe_call name) (inr (VpcsResponse [])) /\
      Forall (found_taken ec2) (removelast (trace r)).
Proof.
  intros W env ec2 fuel w name. unfold choose_name. cbn [call bind run].
  destruct (api env ec2 _ w) as [[e' | r] w']; [discriminate |].
  rewrite trace_after, outcome_after.
  destruct r as [l | | | | | |]; cbn [get_Vpcs bind run trace outcome fst snd];
    try discriminate.
  destruct l as [| v l]; cbn [truthy run trace outcome fst snd].
  - intros H. inversion H; subst. exists 0. repeat split. constructor.
  - intros H. destruct (name_loop_finished env ec2 fuel 1 w' name H) as (j & Hn & Hc & Hl & Hf).
    exists (S j). split; [exact Hn |].
    destruct (trace (run env (name_loop ec2 fuel 1) w')) as [| ev t] eqn:Et;
      [discriminate Hl |].
    repeat split.
    + change (calls (Called ec2 (describe_vpcs [tag_Name_filter base_name])
                            (inr (VpcsResponse (v :: l))) :: ev :: t))
        with (probe_call base_name :: calls (ev :: t)).
      rewrite Hc. reflexivity.
    + exact Hl.
    + change (removelast (Called ec2 (describe_vpcs [tag_Name_filter base_name])
                                 (inr (VpcsResponse (v :: l))) :: ev :: t))
        with (Called ec2 (describe_vpcs [tag_Name_filter base_name])
                     (inr (VpcsResponse (v :: l))) :: removelast (ev :: t)).
      constructor; [eexists _, _, _; reflexivity | exact Hf].
Qed.

Lemma name_loop_spins {W} (env : Env W) ec2 w :
  (forall name, exists v l,
      api env ec2 (describe_vpcs [tag_Name_filter name]) w
      = (inr (VpcsResponse (v :: l)), w)) ->
  forall fuel i,
    outcome (run env (name_loop ec2 fuel i) w) = Looping /\
    calls (trace (run env (name_loop ec2 fuel i) w))
    = map probe_call (map suffixed (seq i fuel)).
Proof.
  intros Hall. induction fuel as [| fuel IH]; intros i; cbn [name_loop call bind run].
  - split; reflexivity.
  - destruct (Hall (suffixed i)) as (v & l & ->).
    rewrite trace_after, outcome_after. cbn [get_Vpcs bind truthy negb].
    destruct (IH (i + 1)) as [Ho Hc]. split; [exact Ho |].
    change (probe_call (suffixed i) :: calls (trace (run env (name_loop ec2 fuel (i + 1)) w))
            = map probe_call (map suffixed (seq i (S fuel)))).
    rewrite Hc. replace (i + 1) with (S i) by lia. reflexivity.
Qed.

(** X2.  The loop has no upper bound of its own: against an environment in
    which every probe finds a VPC, it is still looping after any number of
    iterations, having probed ['vpc_image'] and one more suffix per
    iteration. *)
Theorem name_search_never_gives_up :
  forall {W} (env : Env W) (ec2 : Client) (w : W),
    (forall name, exists v l,
        api env ec2 (describe_vpcs [tag_Name_filter name]) w
        = (inr (VpcsResponse (v :: l)), w)) ->
    forall fuel,
      let r := run env (choose_name ec2 fuel) w in
      outcome r = Looping /\
      calls (trace r) = map probe_call (names_tried fuel) /\
      List.length (calls (trace r)) = S fuel.
Proof.
  intros W env ec2 w Hall fuel r. subst r.
  unfold choose_name. cbn [call bind run].
  destruct (Hall base_name) as (v & l & ->).
  rewrite trace_after, outcome_after. cbn [get_Vpcs bind truthy].
  destruct (name_loop_spins env ec2 w Hall fuel 1) as [Ho Hc].
  split; [exact Ho |].
  assert (Hcalls : calls (Called ec2 (describe_vpcs [tag_Name_filter base_name])
                                 (inr (VpcsResponse (v :: l)))
                          :: trace (run env (name_loop ec2 fuel 1) w))
                   = map probe_call (names_tried fuel)).
  { change (probe_call base_name :: calls (trace (run env (name_loop ec2 fuel 1) w))
            = map probe_call (names_tried fuel)).
    rewrite Hc. reflexivity. }
  split; [exact Hcalls |].
  rewrite Hcalls. unfold names_tried. cbn [map List.length].
  rewrite !length_map, length_seq. reflexivity.
Qed.

(** X4.  The names the probe tries, ['vpc_image'], ['vpc_image_1'],
    ['vpc_image_2'], ..., are pairwise distinct: no name is probed twice. *)
Theorem names_tried_are_distinct : forall k, NoDup (names_tried k).
Proof.
  intros k. unfold names_tried. constructor.
  - intros Hin. apply in_map_iff in Hin. destruct Hin as (i & Hi & _).
    unfold suffixed, base_name in Hi. cbn [append] in Hi. discriminate Hi.
  - apply Injective_map_NoDup; [| apply seq_NoDup].
    intros i j. apply suffixed_inj.
Qed.

(** ** The further properties on the sample worlds *)

(** X2 on the environment in which every name is taken. *)
Lemma name_search_never_gives_up_witness :
  outcome (run stubborn (choose_name (boto3_client "ec2" "eu-west-1") 7) tt) = Looping /\
  calls (trace (run stubborn (choose_name (boto3_client "ec2" "eu-west-1") 7) tt))
  = map probe_call (names_tried 7) /\
  List.length (calls (trace (run stubborn (choose_name (boto3_client "ec2" "eu-west-1") 7) tt)))
  = 8.
Proof.
  apply (name_search_never_gives_up stubborn (boto3_client "ec2" "eu-west-1") tt).
  intros name. eexists _, _. reflexivity.
Defined.

(** X3 on the small account with two names taken. *)
Lemma probe_ends_on_a_name_reported_unused_witness :
  exists k,
    "vpc_image_2" = match k with O => base_name | S _ => suffixed k end /\
    calls (trace (run account (choose_name (boto3_client "ec2" "us-east-1") 5) crowded))
    = map probe_call (names_tried k) /\
    last (trace (run account (choose_name (boto3_client "ec2" "us-east-1") 5) crowded))
         (Printed "")
    = Called (boto3_client "ec2" "us-east-1") (probe_call "vpc_image_2")
             (inr (VpcsResponse [])) /\
    Forall (found_taken (boto3_client "ec2" "us-east-1"))
           (removelast (trace (run account (choose_name (boto3_client "ec2" "us-east-1") 5)
                                   crowded))).
Proof.
  apply (probe_ends_on_a_name_reported_unused
           account (boto3_client "ec2" "us-east-1") 5 crowded "vpc_image_2").
  reflexivity.
Defined.

(** X6 on a run in which two route tables are listed: the first is used. *)
Lemma default_route_goes_through_the_new_gateway_witness :
  "0.0.0.0/0" = "0.0.0.0/0" /\
  exists cl1 cl2 cl3 cl4 vpc attached rt0 others,
    In (Called cl1 (create_vpc cidr_block tenancy) (inr (VpcResponse vpc)))
       (trace (run canned (script 0) two_route_tables)) /\
    In (Called cl2 create_internet_gateway (inr (InternetGatewayResponse "igw-1")))
       (trace (run canned (script 0) two_route_tables)) /\
    In (Called cl3 (attach_internet_gateway "igw-1" vpc) (inr attached))
       (trace (run canned (script 0) two_route_tables)) /\
    In (Called cl4 (describe_route_tables [ {| Name := "vpc-id"; Values := [vpc] |} ])
               (inr (RouteTablesResponse (rt0 :: others))))
       (trace (run canned (script 0) two_route_tables)) /\
    "rtb-a" = RouteTableId rt0.
Proof.
  apply (default_route_goes_through_the_new_gateway
           canned 0 two_route_tables
           (boto3_client "ec2" "ap-south-1") "rtb-a" "0.0.0.0/0" "igw-1"
           (inr OtherResponse)).
  vm_compute. find_in.
Defined.

(** X7 on the recorded run. *)
Lemma summary_reports_the_run_witness :
  exists answer w1 vpc_name,
    read_line canned recorded = (inr answer, w1) /\
    outcome (run canned (choose_name (boto3_client "ec2" (py_or answer default_region)) 0) w1)
    = Finished vpc_name /\
    printed (trace (run canned (script 0) recorded))
    = summary (py_or answer default_region) vpc_name
              (ids_of (after_name_chosen (trace (run canned (script 0) recorded)))).
Proof.
  apply (summary_reports_the_run canned 0 recorded). reflexivity.
Defined.


(** X9 on the run in which no route table is listed. *)
Lemma no_route_table_strands_the_run_witness :
  outcome (run canned (script 0) no_route_table) = Uncaught IndexError /\
  printed (trace (run canned (script 0) no_route_table)) = [] /\
  exists vpc_name,
    calls (after_name_chosen (trace (run canned (script 0) no_route_table)))
    = firstn 8 (plan vpc_name
                     (ids_of (after_name_chosen (trace (run canned (script 0) no_route_table))))) /\
    map kind (calls (after_name_chosen (trace (run canned (script 0) no_route_table))))
    = [Mutation; Tagging; Mutation; Mutation; Tagging; Mutation; Tagging; Query].
Proof.
  apply (no_route_table_strands_the_run
           canned 0 no_route_table (boto3_client "ec2" "eu-west-1")
           [ {| Name := "vpc-id"; Values := ["vpc-0"] |} ]).
  vm_compute. find_in.
Defined.
